(** * whatsapp-scheduler front end: formatters, API interceptor, forms

    A shallow embedding of the JavaScript sources of the scheduler's web
    client (the [api] module with its [formatters], the [CreateMessage],
    [MessageDetails], [TestMessage] and [MessageList] components and the
    tabs of [App]) and of
    the message store contract the specification describes, followed by
    the properties established about them.

    Conventions.
    - A JavaScript string is the list of its UTF-16 code units; [length]
      is then the [.length] of the string.
    - A value that may be [null] or [undefined] is an [option].
    - A [Date] is its time value in milliseconds; an Invalid Date (time
      value NaN) is [None].  Every comparison with NaN is false.
    - [new Date()] reads the clock; each reading is an explicit argument. *)

From Stdlib Require Import ZArith NArith Lia String Ascii.
From stdpp Require Import base option list gmap.

Local Open Scope Z_scope.

(** ** JavaScript strings *)

Module JsString.

Definition jsstring := list N.

(** A source literal, as code units (the literals used are ASCII). *)
Definition lit (s : string) : jsstring :=
  List.map N_of_ascii (list_ascii_of_string s).

(** [!!s] for a string: only the empty string is falsy. *)
Definition truthy (s : jsstring) : bool :=
  match s with
  | [] => false
  | _ :: _ => true
  end.

(** [!!v] for a string that may be null or undefined. *)
Definition truthy_opt (v : option jsstring) : bool :=
  match v with
  | None => false
  | Some s => truthy s
  end.

Definition plus_sign : N := 43%N.

(** The class [\d] without the unicode flag: ASCII 0-9. *)
Definition is_digit (c : N) : bool := ((48 <=? c) && (c <=? 57))%N.

(** ECMAScript WhiteSpace and LineTerminator code points, the ones
    [String.prototype.trim] strips. *)
Definition is_white_space (c : N) : bool :=
  ((c =? 9) || (c =? 10) || (c =? 11) || (c =? 12) || (c =? 13)
   || (c =? 32) || (c =? 160) || (c =? 5760)
   || ((8192 <=? c) && (c <=? 8202))
   || (c =? 8232) || (c =? 8233) || (c =? 8239) || (c =? 8287)
   || (c =? 12288) || (c =? 65279))%N.

Fixpoint trimStart (s : jsstring) : jsstring :=
  match s with
  | [] => []
  | c :: s' => if is_white_space c then trimStart s' else s
  end.

Definition trimEnd (s : jsstring) : jsstring :=
  rev (trimStart (rev s)).

(** [s.trim()] *)
Definition trim (s : jsstring) : jsstring := trimEnd (trimStart s).

(** [s.startsWith(c)] for a one-character search string. *)
Definition startsWith (c : N) (s : jsstring) : bool :=
  match s with
  | [] => false
  | d :: _ => (d =? c)%N
  end.

(** [s.substring(start, end)] with integer arguments: both are clamped
    to [0, s.length] and swapped when out of order. *)
Definition substring (s : jsstring) (start stop : Z) : jsstring :=
  let len := Z.of_nat (length s) in
  let fs := Z.min (Z.max start 0) len in
  let fe := Z.min (Z.max stop 0) len in
  let from := Z.min fs fe in
  let to := Z.max fs fe in
  take (Z.to_nat (to - from)) (drop (Z.to_nat from) s).

(** [s.replace(/[^\d+]/g, '')]: delete every code unit that is neither
    a digit nor ['+']. *)
Definition strip_non_phone (s : jsstring) : jsstring :=
  List.filter (fun c => is_digit c || (c =? plus_sign)%N) s.

End JsString.

Import JsString.

(** ** The message record the API returns *)

Module Msg.

Record t := {
  id : N;
  phone : jsstring;
  message : jsstring;
  send_time : option Z;     (* time value of [new Date(m.send_time)] *)
  is_sent : bool;
  sent_at : option jsstring;
  error_message : option jsstring
}.

End Msg.

(** ** [formatters] of the api module *)

Module formatters.

(** [formatPhone(phone)] *)
Definition formatPhone (phone : option jsstring) : jsstring :=
  if negb (truthy_opt phone) then []
  else
    let clean := strip_non_phone (default [] phone) in
    if negb (startsWith plus_sign clean) then plus_sign :: clean
    else clean.

(** [truncateText(text, maxLength)] *)
Definition truncateText (text : option jsstring) (maxLength : Z) : jsstring :=
  if negb (truthy_opt text) then []
  else
    let t := default [] text in
    if Z.of_nat (length t) >? maxLength
    then substring t 0 maxLength ++ lit "..."
    else t.

(** The default of the second parameter. *)
Definition truncateText_default (text : option jsstring) : jsstring :=
  truncateText text 50.

Inductive display_status := sent | failed | overdue | pending.

Record status_descriptor := {
  status : display_status;
  label : string;
  color : string
}.

(** [sendTime <= now] on two Dates: false when [sendTime] is invalid. *)
Definition date_leb (d : option Z) (now : Z) : bool :=
  match d with
  | None => false
  | Some t => t <=? now
  end.

(** [getMessageStatus(message)], with the clock reading [now]. *)
Definition getMessageStatus (now : Z) (m : Msg.t) : status_descriptor :=
  if Msg.is_sent m then
    {| status := sent; label := "Enviado"; color := "text-green-600" |}
  else if truthy_opt (Msg.error_message m) then
    {| status := failed; label := "Fallido"; color := "text-red-600" |}
  else if date_leb (Msg.send_time m) now then
    {| status := overdue; label := "Atrasado"; color := "text-orange-600" |}
  else
    {| status := pending; label := "Pendiente"; color := "text-blue-600" |}.

End formatters.

(** ** Notifications and promises *)

Inductive toast :=
  | toast_error (text : jsstring)
  | toast_success (text : jsstring).

Inductive promise (A E : Type) :=
  | Fulfilled (value : A)
  | Rejected (reason : E).

Arguments Fulfilled {A E} value.
Arguments Rejected {A E} reason.

(** ** The axios instance of the api module and its response interceptor *)

Module api.

Record response := {
  status : Z;
  data_message : option jsstring     (* [response.data?.message] *)
}.

Record error := {
  error_response : option response;  (* [error.response] *)
  error_text : option jsstring       (* [error.message] *)
}.

(** [error.response?.data?.message || error.message || 'Error desconocido'] *)
Definition notification_text (e : error) : jsstring :=
  let m := error_response e ≫= data_message in
  if truthy_opt m then default [] m
  else if truthy_opt (error_text e) then default [] (error_text e)
  else lit "Error desconocido".

(** [error.response?.status !== 404] *)
Definition status_is_not_404 (e : error) : bool :=
  match error_response e with
  | None => true
  | Some r => negb (status r =? 404)
  end.

(** What one run of a handler leaves behind: the toasts shown and the
    promise handed to the caller. *)
Record handled := {
  toasts : list toast;
  settled : promise response error
}.

(** First handler of [api.interceptors.response.use]. *)
Definition on_fulfilled (r : response) : handled :=
  {| toasts := []; settled := Fulfilled r |}.

(** Second handler of [api.interceptors.response.use]. *)
Definition on_rejected (e : error) : handled :=
  let message := notification_text e in
  {| toasts := if status_is_not_404 e then [toast_error message] else [];
     settled := Rejected e |}.

End api.

(** ** Field validation of react-hook-form

    The forms declare their rules through [register(name, rules)]; the
    library checks a text field in the order required, maxLength and
    minLength, pattern, validate, and reports the first failure.  Rule
    messages are kept as the source writes them. *)

Module hookform.

Record rules := {
  required : option string;
  maxLength : option (Z * string);
  minLength : option (Z * string);
  pattern : option ((jsstring -> bool) * string);
  validate : option (jsstring -> option string)
}.

Definition exceeds_max (r : rules) (value : jsstring) : bool :=
  match maxLength r with
  | Some (n, _) => Z.of_nat (length value) >? n
  | None => false
  end.

Definition below_min (r : rules) (value : jsstring) : bool :=
  match minLength r with
  | Some (n, _) => Z.of_nat (length value) <? n
  | None => false
  end.

Definition check_required (r : rules) (value : jsstring) : option string :=
  match required r with
  | Some msg => if truthy value then None else Some msg
  | None => None
  end.

(** Skipped on an empty value; the maxLength message wins when the
    maximum is exceeded. *)
Definition check_length (r : rules) (value : jsstring) : option string :=
  if negb (truthy value) then None
  else if exceeds_max r value then snd <$> maxLength r
  else if below_min r value then snd <$> minLength r
  else None.

Definition check_pattern (r : rules) (value : jsstring) : option string :=
  match pattern r with
  | Some (matches, msg) =>
      if truthy value && negb (matches value) then Some msg else None
  | None => None
  end.

Definition check_validate (r : rules) (value : jsstring) : option string :=
  match validate r with
  | Some f => f value
  | None => None
  end.

Definition or_else (a b : option string) : option string :=
  match a with
  | Some _ => a
  | None => b
  end.

(** The error of one field, [None] when the value passes. *)
Definition validateField (r : rules) (value : jsstring) : option string :=
  or_else (check_required r value)
    (or_else (check_length r value)
       (or_else (check_pattern r value) (check_validate r value))).

(** [errors]: the failing fields with their messages, in field order. *)
Definition collect (fields : list (string * rules * jsstring))
  : list (string * string) :=
  omap (fun f => match f with
                 | (name, r, value) => pair name <$> validateField r value
                 end) fields.

End hookform.

(** What a submit attempt comes to: the form is held back by field
    errors, the handler stops with a notification and sends nothing, or
    the api service is called with a payload. *)
Inductive outcome (P : Type) :=
  | Invalid (errors : list (string * string))
  | Stopped (t : toast)
  | Requested (payload : P).

Arguments Invalid {P} errors.
Arguments Stopped {P} t.
Arguments Requested {P} payload.

(** Matchers for the phone patterns of the three forms. *)
Module PhonePattern.

Definition digits (s : jsstring) : bool := forallb is_digit s.

Definition length_within (lo hi : nat) (s : jsstring) : bool :=
  ((lo <=? length s) && (length s <=? hi))%nat.

(** [/^(\+?52)?[0-9]{10}$/] *)
Definition create (s : jsstring) : bool :=
  let local := fun r => length_within 10 10 r && digits r in
  local s
  || match s with
     | 53%N :: 50%N :: r => local r
     | 43%N :: 53%N :: 50%N :: r => local r
     | _ => false
     end.

(** [/^\+?\d{10,15}$/] *)
Definition edit (s : jsstring) : bool :=
  let body := fun r => length_within 10 15 r && digits r in
  match s with
  | 43%N :: r => body r
  | _ => body s
  end.

Definition is_nonzero_digit (c : N) : bool := ((49 <=? c) && (c <=? 57))%N.

(** [/^\+?[1-9]\d{9,14}$/] *)
Definition test (s : jsstring) : bool :=
  let body := fun r =>
    match r with
    | c :: r' => is_nonzero_digit c && length_within 9 14 r' && digits r'
    | [] => false
    end in
  match s with
  | 43%N :: r => body r
  | _ => body s
  end.

End PhonePattern.

(** The three text fields of the schedule and edit forms; the payload
    sent to the API has the same shape. *)
Record schedule_fields := {
  phone : jsstring;
  message : jsstring;
  send_time : jsstring
}.

(** The two fields of the direct-send form and of its payload. *)
Record direct_fields := {
  direct_phone : jsstring;      (* field [phone] *)
  direct_message : jsstring     (* field [message] *)
}.

Definition future_date_text : string := "La fecha y hora debe ser en el futuro".

Section Forms.

(** The JavaScript runtime's date functions: the time value of
    [new Date(text)] ([None] for an Invalid Date) and
    [Date.prototype.toISOString] on a valid date. *)
Variable Date_parse : jsstring -> option Z.
Variable toISOString : Z -> jsstring.

(** [sendTime <= new Date()] for [sendTime = new Date(value)]. *)
Definition not_in_future (value : jsstring) (now : Z) : bool :=
  formatters.date_leb (Date_parse value) now.

(** *** CreateMessage *)

Definition create_phone_rules : hookform.rules :=
  {| hookform.required := Some "El número de teléfono es requerido"%string;
     hookform.maxLength := None;
     hookform.minLength := None;
     hookform.pattern :=
       Some (PhonePattern.create,
             "Formato inválido. Use: +52XXXXXXXXXX o XXXXXXXXXX"%string);
     hookform.validate := None |}.

Definition create_message_rules : hookform.rules :=
  {| hookform.required := Some "El mensaje es requerido"%string;
     hookform.maxLength :=
       Some (4096, "El mensaje no puede exceder 4096 caracteres"%string);
     hookform.minLength := Some (1, "El mensaje no puede estar vacío"%string);
     hookform.pattern := None;
     hookform.validate := None |}.

Definition create_send_time_rules (now : Z) : hookform.rules :=
  {| hookform.required := Some "La fecha y hora es requerida"%string;
     hookform.maxLength := None;
     hookform.minLength := None;
     hookform.pattern := None;
     hookform.validate :=
       Some (fun value =>
               if not_in_future value now then Some future_date_text
               else None) |}.

(** [onSubmit] of CreateMessage.  Building [messageData] calls
    [toISOString], which throws on an Invalid Date; the handler's
    [catch] turns that into the generic notification. *)
Definition create_onSubmit (now : Z) (data : schedule_fields)
  : outcome schedule_fields :=
  match Date_parse (send_time data) with
  | None => Stopped (toast_error (lit "Error creando el mensaje"))
  | Some t =>
      let messageData :=
        {| phone := formatters.formatPhone (Some (phone data));
           message := trim (message data);
           send_time := toISOString t |} in
      if not_in_future (send_time data) now
      then Stopped (toast_error (lit future_date_text))
      else Requested messageData
  end.

(** [handleSubmit(onSubmit)]: the clock is read once by the field rule
    and once more by the handler. *)
Definition create_handleSubmit (now_validate now_submit : Z)
    (data : schedule_fields) : outcome schedule_fields :=
  match hookform.collect
          [("phone"%string, create_phone_rules, phone data);
           ("message"%string, create_message_rules, message data);
           ("send_time"%string, create_send_time_rules now_validate,
           send_time data)]
  with
  | [] => create_onSubmit now_submit data
  | errors => Invalid errors
  end.

(** *** MessageDetails (the edit form) *)

Definition edit_phone_rules : hookform.rules :=
  {| hookform.required := Some "El teléfono es obligatorio"%string;
     hookform.maxLength := None;
     hookform.minLength := None;
     hookform.pattern :=
       Some (PhonePattern.edit, "Número de teléfono inválido"%string);
     hookform.validate := None |}.

Definition edit_message_rules : hookform.rules :=
  {| hookform.required := Some "El mensaje es obligatorio"%string;
     hookform.maxLength := Some (1000, "Máximo 1000 caracteres"%string);
     hookform.minLength := None;
     hookform.pattern := None;
     hookform.validate := None |}.

Definition edit_send_time_rules : hookform.rules :=
  {| hookform.required := Some "La fecha y hora es obligatoria"%string;
     hookform.maxLength := None;
     hookform.minLength := None;
     hookform.pattern := None;
     hookform.validate := None |}.

(** [onSubmit] of MessageDetails; a request carries the message id. *)
Definition edit_onSubmit (messageId : N) (now : Z) (data : schedule_fields)
  : outcome (N * schedule_fields) :=
  match Date_parse (send_time data) with
  | None => Stopped (toast_error (lit "Error actualizando el mensaje"))
  | Some t =>
      let updateData :=
        {| phone := formatters.formatPhone (Some (phone data));
           message := trim (message data);
           send_time := toISOString t |} in
      if not_in_future (send_time data) now
      then Stopped (toast_error (lit future_date_text))
      else Requested (messageId, updateData)
  end.

Definition edit_handleSubmit (messageId : N) (now : Z)
    (data : schedule_fields) : outcome (N * schedule_fields) :=
  match hookform.collect
          [("phone"%string, edit_phone_rules, phone data);
           ("message"%string, edit_message_rules, message data);
           ("send_time"%string, edit_send_time_rules, send_time data)]
  with
  | [] => edit_onSubmit messageId now data
  | errors => Invalid errors
  end.

End Forms.

(** *** TestMessage (direct send) *)

Definition test_phone_rules : hookform.rules :=
  {| hookform.required := Some "El número de teléfono es requerido"%string;
     hookform.maxLength := None;
     hookform.minLength := None;
     hookform.pattern :=
       Some (PhonePattern.test,
             "Formato inválido. Use un número internacional válido con prefijo +"%string);
     hookform.validate := None |}.

Definition test_message_rules : hookform.rules :=
  {| hookform.required := Some "El mensaje es requerido"%string;
     hookform.maxLength :=
       Some (4096, "El mensaje no puede exceder 4096 caracteres"%string);
     hookform.minLength := Some (1, "El mensaje no puede estar vacío"%string);
     hookform.pattern := None;
     hookform.validate := None |}.

Definition test_onSubmit (data : direct_fields) : outcome direct_fields :=
  Requested
    {| direct_phone := formatters.formatPhone (Some (direct_phone data));
       direct_message := trim (direct_message data) |}.

Definition test_handleSubmit (data : direct_fields) : outcome direct_fields :=
  match hookform.collect
          [("phone"%string, test_phone_rules, direct_phone data);
           ("message"%string, test_message_rules, direct_message data)]
  with
  | [] => test_onSubmit data
  | errors => Invalid errors
  end.

(** ** MessageList: the action buttons of one row *)

Module MessageList.

Inductive action :=
  | Edit (messageId : N)        (* [onEditMessage(message.id)] *)
  | Delete (messageId : N).     (* [handleDeleteMessage(message.id)] *)

Definition actions (m : Msg.t) : list action :=
  (if negb (Msg.is_sent m) then [Edit (Msg.id m)] else [])
  ++ [Delete (Msg.id m)].

End MessageList.

(** ** The message store contract

    The store and its dispatcher run on the server, whose sources are not
    part of the client; its operations are taken from the specification's
    section on the Message Store. *)

Module Store.

(** Modelled from the spec: the stored state of a message, with the
    internal [in_flight] marker next to the public values. *)
Inductive status :=
  | pending
  | in_flight
  | sent (sent_at : Z)
  | failed (error_message : jsstring).

(** Modelled from the spec: the fields of a ScheduledMessage the store
    operations read; the id is the key of the store. *)
Record record := {
  recipient : jsstring;
  body : jsstring;
  send_time : Z;
  state : status
}.

(** Modelled from the spec: the selection test of [claim_due],
    [status == pending and send_time <= now]. *)
Definition is_due (now : Z) (r : record) : bool :=
  match state r with
  | pending => send_time r <=? now
  | _ => false
  end.

(** Modelled from the spec: the transition of a claimed message to the
    [in_flight] marker. *)
Definition mark_in_flight (r : record) : record :=
  {| recipient := recipient r; body := body r;
     send_time := send_time r; state := in_flight |}.

(** The ids of the due messages, in the store's scan order. *)
Definition due_ids (now : Z) (s : gmap N record) : list N :=
  (List.filter (fun kv => is_due now kv.2) (map_to_list s)).*1.

(** Modelled from the spec: [claim_due(now, limit)] of the Message
    Store, absent from the client sources.  It selects up to [limit]
    messages with [status == pending and send_time <= now], moves them
    to the [in_flight] marker and returns their ids, as one atomic
    step: the result and the store after the call. *)
Definition claim_due (now : Z) (limit : nat) (s : gmap N record)
  : list N * gmap N record :=
  let ids := take limit (due_ids now s) in
  (ids, foldr (alter mark_in_flight) s ids).

(** Modelled from the spec: two concurrent invocations of the atomic
    [claim_due] take effect one after the other; the second scans the
    store the first has left. *)
Definition claim_twice (now1 : Z) (limit1 : nat) (now2 : Z) (limit2 : nat)
    (s : gmap N record) : list N * list N * gmap N record :=
  let '(ids1, s1) := claim_due now1 limit1 s in
  let '(ids2, s2) := claim_due now2 limit2 s1 in
  (ids1, ids2, s2).

End Store.

(** ** Vocabulary of the properties *)

(** A code unit [formatPhone] keeps: a digit or ['+']. *)
Definition is_phone_char (c : N) : bool := is_digit c || (c =? plus_sign)%N.

Definition phone_chars_only (s : jsstring) : bool := forallb is_phone_char s.

(** The canonical recipient form: one leading ['+'], digits only after. *)
Definition canonical_phone (s : jsstring) : bool :=
  match s with
  | [] => false
  | c :: r => (c =? plus_sign)%N && forallb is_digit r
  end.

Definition no_white_space_first (s : jsstring) : Prop :=
  match s with
  | [] => True
  | c :: _ => is_white_space c = false
  end.

(** [r] is [s] without its leading and trailing white space. *)
Definition trimmed_from (s r : jsstring) : Prop :=
  (exists pre post,
      s = pre ++ r ++ post
      /\ forallb is_white_space pre = true
      /\ forallb is_white_space post = true)
  /\ no_white_space_first r
  /\ no_white_space_first (rev r).

(** The HTTP status of a failed response, if there was a response. *)
Definition http_status (e : api.error) : option Z :=
  api.status <$> api.error_response e.

(** The phone and message fields pass their rules and a date was typed;
    what is left to decide a submit is the send time itself. *)
Definition create_fields_ok (data : schedule_fields) : Prop :=
  hookform.validateField create_phone_rules (phone data) = None
  /\ hookform.validateField create_message_rules (message data) = None
  /\ send_time data <> [].

Definition edit_fields_ok (data : schedule_fields) : Prop :=
  hookform.validateField edit_phone_rules (phone data) = None
  /\ hookform.validateField edit_message_rules (message data) = None
  /\ send_time data <> [].

(** A clock for the examples: a date text of [n] code units denotes the
    instant [n], and the instant is rendered as that many zeros. *)
Definition example_parse (text : jsstring) : option Z :=
  Some (Z.of_nat (length text)).

Definition example_iso (t : Z) : jsstring := replicate (Z.to_nat t) 48%N.

(** The message fields of the examples: a ten-digit number, a body with
    white space around it and a date text of sixteen code units. *)
Definition example_data : schedule_fields :=
  {| phone := lit "5512345678";
     message := lit "  hola  ";
     send_time := lit "2030-01-01T10:00" |}.

Definition example_direct : direct_fields :=
  {| direct_phone := lit "+525512345678";
     direct_message := lit " prueba " |}.

(** A store for the examples: two pending messages and a sent one. *)
Definition example_store : gmap N Store.record :=
  list_to_map
    [(1%N, {| Store.recipient := lit "+15551230000"; Store.body := lit "hi";
              Store.send_time := 100; Store.state := Store.pending |});
     (2%N, {| Store.recipient := lit "+15551230001"; Store.body := lit "yo";
              Store.send_time := 200; Store.state := Store.pending |});
     (3%N, {| Store.recipient := lit "+15551230002"; Store.body := lit "ok";
              Store.send_time := 50; Store.state := Store.sent 60 |})].

(** ** The phone preview of the direct-send form *)

(** The class [[\s\-()]]: white space, hyphen and parentheses. *)
Definition is_preview_noise (c : N) : bool :=
  (is_white_space c || (c =? 45) || (c =? 40) || (c =? 41))%N.

(** [formatPhonePreview(phone)] of TestMessage. *)
Definition formatPhonePreview (phone : option jsstring) : jsstring :=
  if negb (truthy_opt phone) then []
  else List.filter (fun c => negb (is_preview_noise c)) (default [] phone).

(** ** The list request *)

Module apiService.

(** A value handed to [URLSearchParams]: a number rendered with
    [toString()], or a string. *)
Inductive param_value :=
  | number_text (n : Z)
  | text (s : jsstring).

(** The [params] object of [getScheduledMessages]; an absent property
    is [None]. *)
Record list_params := {
  page : option Z;
  per_page : option Z;
  status : option jsstring;
  phone : option jsstring
}.

(** [getScheduledMessages(params)]: the entries of [queryParams], in
    order, that make the query of the GET on [/api/scheduled]. *)
Definition getScheduledMessages (params : list_params)
  : list (string * param_value) :=
  [("page"%string, number_text (default 1 (page params)));
   ("per_page"%string, number_text (default 50 (per_page params)))]
  ++ (if truthy_opt (status params)
      then [("status"%string, text (default [] (status params)))]
      else [])
  ++ (if truthy_opt (phone params)
      then [("phone"%string, text (default [] (phone params)))]
      else []).

End apiService.

(** ** MessageList: loading and paging *)

Module MessageListState.

Record t := {
  searchTerm : jsstring;
  statusFilter : jsstring;
  currentPage : Z;
  totalPages : Z;
  totalMessages : Z
}.

(** The [params] object [loadMessages] builds.  [loadMessages] is a
    closure of one render and reads the state of that render, [s],
    whenever it is called: at once by the effect of that render and by
    the refresh button, later by the debounce timer and by the delete
    handler, when the screen may already show a newer state. *)
Definition load_params (s : t) : apiService.list_params :=
  {| apiService.page := Some (currentPage s);
     apiService.per_page := Some 10;
     apiService.status :=
       if bool_decide (statusFilter s = lit "all") then None
       else Some (statusFilter s);
     apiService.phone :=
       if truthy (trim (searchTerm s)) then Some (trim (searchTerm s))
       else None |}.

(** The query a call of [loadMessages] sends, for the render state [s]
    its closure captured. *)
Definition loadMessages (s : t) : list (string * apiService.param_value) :=
  apiService.getScheduledMessages (load_params s).

(** [Math.ceil(total / 10)] for an integer count. *)
Definition pages_for (total : Z) : Z := - ((- total) / 10).

(** The state after a response with [response.total = total]. *)
Definition loaded (total : Z) (s : t) : t :=
  {| searchTerm := searchTerm s; statusFilter := statusFilter s;
     currentPage := currentPage s;
     totalPages := pages_for total; totalMessages := total |}.

Definition setCurrentPage (page : Z) (s : t) : t :=
  {| searchTerm := searchTerm s; statusFilter := statusFilter s;
     currentPage := page;
     totalPages := totalPages s; totalMessages := totalMessages s |}.

(** The pagination block is rendered when [totalPages > 1]. *)
Definition shows_pagination (s : t) : bool := totalPages s >? 1.

(** "Mostrando [from] al [to] de [totalMessages] mensajes". *)
Definition showing_from (s : t) : Z := (currentPage s - 1) * 10 + 1.
Definition showing_to (s : t) : Z :=
  Z.min (currentPage s * 10) (totalMessages s).

(** The numbered buttons, inside the pagination block: when the block
    is rendered, of the pages [1 .. totalPages], those that are the
    current page or within two of it; none otherwise. *)
Definition page_buttons (s : t) : list Z :=
  if shows_pagination s then
    List.filter
      (fun page => (page =? currentPage s)
                   || (Z.abs (page - currentPage s) <=? 2))
      (List.map (fun i => Z.of_nat i + 1) (seq 0 (Z.to_nat (totalPages s))))
  else [].

(** The targets of "Anterior" and "Siguiente". *)
Definition previous_page (s : t) : Z := Z.max 1 (currentPage s - 1).
Definition next_page (s : t) : Z := Z.min (totalPages s) (currentPage s + 1).

(** A click in the pagination block. *)
Inductive click : t -> t -> Prop :=
  | click_previous s :
      shows_pagination s = true ->
      currentPage s <> 1 -> click s (setCurrentPage (previous_page s) s)
  | click_next s :
      shows_pagination s = true ->
      currentPage s <> totalPages s ->
      click s (setCurrentPage (next_page s) s)
  | click_page s page :
      shows_pagination s = true ->
      In page (page_buttons s) -> click s (setCurrentPage page s).

End MessageListState.

(** ** App: tabs and the selected message *)

Module App.

Record t := {
  activeTab : string;
  selectedMessageId : option N;
  isMobileMenuOpen : bool
}.

Definition initial : t :=
  {| activeTab := "dashboard"; selectedMessageId := None;
     isMobileMenuOpen := false |}.

(** The [id]s of the [navigation] entries. *)
Definition navigation : list string :=
  ["dashboard"; "create"; "list"; "test"]%string.

Definition handleTabChange (tabId : string) (s : t) : t :=
  {| activeTab := tabId; selectedMessageId := None;
     isMobileMenuOpen := false |}.

Definition handleEditMessage (messageId : N) (s : t) : t :=
  {| activeTab := "edit"; selectedMessageId := Some messageId;
     isMobileMenuOpen := isMobileMenuOpen s |}.

Definition setActiveTab (tab : string) (s : t) : t :=
  {| activeTab := tab; selectedMessageId := selectedMessageId s;
     isMobileMenuOpen := isMobileMenuOpen s |}.

Definition toggleMobileMenu (s : t) : t :=
  {| activeTab := activeTab s; selectedMessageId := selectedMessageId s;
     isMobileMenuOpen := negb (isMobileMenuOpen s) |}.

Inductive view :=
  | DashboardView
  | CreateMessageView
  | MessageListView
  | MessageDetailsView (messageId : N)
  | SelectAMessage
  | TestMessageView.

(** [selectedMessageId ? ... : ...]: a number is truthy unless zero. *)
Definition selected (s : t) : option N :=
  match selectedMessageId s with
  | Some messageId => if (messageId =? 0)%N then None else Some messageId
  | None => None
  end.

(** [renderContent()] *)
Definition renderContent (s : t) : view :=
  if String.eqb (activeTab s) "dashboard" then DashboardView
  else if String.eqb (activeTab s) "create" then CreateMessageView
  else if String.eqb (activeTab s) "list" then MessageListView
  else if String.eqb (activeTab s) "edit" then
    match selected s with
    | Some messageId => MessageDetailsView messageId
    | None => SelectAMessage
    end
  else if String.eqb (activeTab s) "test" then TestMessageView
  else DashboardView.

(** What can happen in a state: the user picks a navigation entry,
    toggles the menu or presses an edit button of the list on screen; or
    a callback handed to CreateMessage ([onSuccess]) or MessageDetails
    ([onClose], [onDeleted]) fires.  Those callbacks run after an API
    call has settled, by when the user may have moved on, so they are
    not tied to the view on screen. *)
Inductive step : t -> t -> Prop :=
  | step_tab s tabId :
      In tabId navigation -> step s (handleTabChange tabId s)
  | step_menu s : step s (toggleMobileMenu s)
  | step_edit s messageId :
      renderContent s = MessageListView ->
      step s (handleEditMessage messageId s)
  | step_to_list s : step s (setActiveTab "list" s).

Inductive reachable : t -> Prop :=
  | reachable_initial : reachable initial
  | reachable_step s s' : reachable s -> step s s' -> reachable s'.

End App.

(** An optional ['+'] followed by [lo] to [hi] digits; [q] is the digits. *)
Definition dialable (lo hi : nat) (p q : jsstring) : Prop :=
  (p = q \/ p = plus_sign :: q)
  /\ forallb is_digit q = true
  /\ (lo <= length q <= hi)%nat.

(** What every reachable state of the App satisfies: the tab is one
    the switch knows, and the edit tab comes with a selected message. *)
Definition tab_invariant (s : App.t) : Prop :=
  In (App.activeTab s)
     ["dashboard"; "create"; "list"; "edit"; "test"]%string
  /\ (App.activeTab s = "edit"%string -> App.selectedMessageId s <> None).

(** * Properties *)

(** ** Strings *)

Section JsStringFacts.

Lemma trimStart_split (s : jsstring) :
  exists pre, s = pre ++ trimStart s /\ forallb is_white_space pre = true.
Proof.
  induction s as [|c s [pre [Hs Hpre]]]; simpl.
  - exists []. split; reflexivity.
  - destruct (is_white_space c) eqn:Hc.
    + exists (c :: pre). simpl. rewrite Hc, Hpre. split; [|reflexivity].
      f_equal. exact Hs.
    + exists []. split; reflexivity.
Qed.

Lemma trimStart_head (s : jsstring) :
  match trimStart s with
  | [] => True
  | c :: _ => is_white_space c = false
  end.
Proof.
  induction s as [|c s IH]; simpl; [exact I|].
  destruct (is_white_space c) eqn:Hc; [exact IH | exact Hc].
Qed.

(** Trimming the end leaves the first code unit alone when it is not
    white space. *)
Lemma trimEnd_keeps_head (c : N) (s : jsstring) :
  is_white_space c = false -> exists r, trimEnd (c :: s) = c :: r.
Proof.
  intros Hc. unfold trimEnd. simpl rev.
  generalize (rev s). intros l.
  induction l as [|d l [r Hr]]; simpl.
  - rewrite Hc. exists []. reflexivity.
  - destruct (is_white_space d) eqn:Hd.
    + exists r. exact Hr.
    + simpl. rewrite rev_app_distr. simpl. eexists. reflexivity.
Qed.

Lemma trimEnd_split (s : jsstring) :
  exists post, s = trimEnd s ++ post /\ forallb is_white_space post = true.
Proof.
  unfold trimEnd.
  destruct (trimStart_split (rev s)) as [pre [Hs Hpre]].
  exists (rev pre). split.
  - rewrite <- rev_app_distr, <- Hs, rev_involutive. reflexivity.
  - rewrite forallb_forall in *. intros x Hx. apply Hpre.
    apply in_rev. exact Hx.
Qed.

Lemma trimEnd_last (s : jsstring) :
  match rev (trimEnd s) with
  | [] => True
  | c :: _ => is_white_space c = false
  end.
Proof.
  unfold trimEnd. rewrite rev_involutive. apply trimStart_head.
Qed.

Lemma trim_trimmed_from (s : jsstring) : trimmed_from s (trim s).
Proof.
  unfold trim. split; [|split].
  - destruct (trimStart_split s) as [pre [Hs Hpre]].
    destruct (trimEnd_split (trimStart s)) as [post [Ht Hpost]].
    exists pre, post. split; [|split; assumption].
    rewrite <- Ht. exact Hs.
  - pose proof (trimStart_head s) as Hh.
    destruct (trimStart s) as [|c r]; [exact I|].
    destruct (trimEnd_keeps_head c r Hh) as [r' Hr']. rewrite Hr'. exact Hh.
  - apply trimEnd_last.
Qed.

End JsStringFacts.

(** ** formatPhone *)

Section FormatPhoneFacts.

Import formatters.

Lemma strip_non_phone_chars (s : jsstring) :
  phone_chars_only (strip_non_phone s) = true.
Proof.
  unfold phone_chars_only, strip_non_phone.
  apply forallb_forall. intros c Hc.
  apply filter_In in Hc. exact (proj2 Hc).
Qed.

Lemma strip_non_phone_fixed (s : jsstring) :
  phone_chars_only s = true -> strip_non_phone s = s.
Proof.
  unfold phone_chars_only, strip_non_phone, is_phone_char.
  induction s as [|c s IH]; simpl; [reflexivity|].
  intros H. apply andb_prop in H. destruct H as [Hc Hs].
  rewrite Hc. f_equal. apply IH. exact Hs.
Qed.

Lemma strip_non_phone_digits (s : jsstring) :
  List.filter is_digit (strip_non_phone s) = List.filter is_digit s.
Proof.
  unfold strip_non_phone.
  induction s as [|c s IH]; simpl; [reflexivity|].
  destruct (is_digit c) eqn:Hd; simpl.
  - rewrite Hd, IH. reflexivity.
  - destruct (c =? plus_sign)%N; simpl; [rewrite Hd|]; exact IH.
Qed.

Lemma strip_non_phone_no_plus (s : jsstring) :
  ~ In plus_sign s -> forallb is_digit (strip_non_phone s) = true.
Proof.
  intros Hs. apply forallb_forall. intros c Hc.
  apply filter_In in Hc. destruct Hc as [Hin Hc].
  apply orb_prop in Hc. destruct Hc as [Hc|Hc]; [exact Hc|].
  apply N.eqb_eq in Hc. subst c. contradiction.
Qed.

(** What [formatPhone] does on a non-empty string, by the first code
    unit of the stripped text. *)
Lemma formatPhone_nonempty (c : N) (p : jsstring) :
  formatPhone (Some (c :: p)) =
    if startsWith plus_sign (strip_non_phone (c :: p))
    then strip_non_phone (c :: p)
    else plus_sign :: strip_non_phone (c :: p).
Proof.
  change (formatPhone (Some (c :: p)))
    with (if negb (startsWith plus_sign (strip_non_phone (c :: p)))
          then plus_sign :: strip_non_phone (c :: p)
          else strip_non_phone (c :: p)).
  destruct (startsWith plus_sign (strip_non_phone (c :: p))); reflexivity.
Qed.

Lemma formatPhone_falsy (phone : option jsstring) :
  truthy_opt phone = false -> formatPhone phone = [].
Proof. intros H. unfold formatPhone. rewrite H. reflexivity. Qed.

Lemma formatPhone_starts (phone : option jsstring) :
  truthy_opt phone = true ->
  startsWith plus_sign (formatPhone phone) = true
  /\ phone_chars_only (formatPhone phone) = true.
Proof.
  destruct phone as [[|c p]|]; try discriminate. intros _.
  rewrite formatPhone_nonempty.
  pose proof (strip_non_phone_chars (c :: p)) as Hchars.
  destruct (startsWith plus_sign (strip_non_phone (c :: p))) eqn:Hs.
  - split; assumption.
  - split; [reflexivity|]. simpl. exact Hchars.
Qed.

Lemma formatPhone_fixed (r : jsstring) :
  startsWith plus_sign r = true ->
  phone_chars_only r = true ->
  formatPhone (Some r) = r.
Proof.
  intros Hs Hc. destruct r as [|c r]; [discriminate|].
  rewrite formatPhone_nonempty, (strip_non_phone_fixed _ Hc), Hs.
  reflexivity.
Qed.

(** C3, as stated, fails: a ['+'] inside the number survives, so the
    result is not a ['+'] followed by digits only. *)
Lemma formatPhone_not_always_canonical :
  ~ (forall p : jsstring, canonical_phone (formatPhone (Some p)) = true).
Proof.
  intros H. specialize (H (lit "+1+2")). vm_compute in H. discriminate.
Qed.

Lemma digit_not_plus (c : N) :
  is_digit c = true -> (c =? plus_sign)%N = false.
Proof.
  unfold is_digit, plus_sign. intros H. apply andb_prop in H.
  destruct H as [H _]. apply N.leb_le in H. apply N.eqb_neq. lia.
Qed.

Lemma strip_non_phone_plus (q : jsstring) :
  strip_non_phone (plus_sign :: q) = plus_sign :: strip_non_phone q.
Proof. reflexivity. Qed.

(** When the formatted number is canonical, read off the stripped text. *)
Lemma formatPhone_canonical_iff (c : N) (p : jsstring) :
  canonical_phone (formatPhone (Some (c :: p))) = true <->
  exists q, forallb is_digit q = true
            /\ (strip_non_phone (c :: p) = q
                \/ strip_non_phone (c :: p) = plus_sign :: q).
Proof.
  rewrite formatPhone_nonempty.
  destruct (strip_non_phone (c :: p)) as [|d r] eqn:Hstrip.
  - simpl. split.
    + intros _. exists []. split; [reflexivity | left; reflexivity].
    + reflexivity.
  - simpl startsWith. destruct (N.eqb_spec d plus_sign) as [->|Hne].
    + unfold canonical_phone. rewrite N.eqb_refl. simpl andb. split.
      * intros Hd. exists r. split; [exact Hd | right; reflexivity].
      * intros (q & Hd & [Hq|Hq]).
        -- subst q. simpl in Hd. discriminate.
        -- inversion Hq. subst q. exact Hd.
    + unfold canonical_phone. rewrite N.eqb_refl. simpl andb. split.
      * intros Hd. exists (d :: r). split; [exact Hd | left; reflexivity].
      * intros (q & Hd & [Hq|Hq]).
        -- subst q. exact Hd.
        -- inversion Hq. contradiction.
Qed.

(** C3 (amended).  [formatPhone] returns the empty string on a null or
    empty input.  On any other string the result starts with ['+'] and
    holds digits and ['+'] signs only.  It is the input with every other
    character deleted when that stripped text starts with ['+'], and the
    stripped text with a ['+'] put in front when it does not; the digits
    are those of the input, in order.  The result is ['+'] followed by
    digits only exactly when the stripped text is digits only or a ['+']
    followed by digits only: so when the input has no ['+'], and when
    its only ['+'] is its first character. *)
Theorem formatPhone_form (phone : option jsstring) :
  (truthy_opt phone = false -> formatPhone phone = [])
  /\ (truthy_opt phone = true ->
      startsWith plus_sign (formatPhone phone) = true
      /\ phone_chars_only (formatPhone phone) = true
      /\ (startsWith plus_sign (strip_non_phone (default [] phone)) = true ->
          formatPhone phone = strip_non_phone (default [] phone))
      /\ (startsWith plus_sign (strip_non_phone (default [] phone)) = false ->
          formatPhone phone
          = plus_sign :: strip_non_phone (default [] phone))
      /\ List.filter is_digit (formatPhone phone)
         = List.filter is_digit (default [] phone)
      /\ (canonical_phone (formatPhone phone) = true <->
          exists q, forallb is_digit q = true
                    /\ (strip_non_phone (default [] phone) = q
                        \/ strip_non_phone (default [] phone)
                           = plus_sign :: q))
      /\ (~ In plus_sign (default [] phone) ->
          canonical_phone (formatPhone phone) = true)
      /\ (forall q,
             phone = Some (plus_sign :: q) ->
             ~ In plus_sign q ->
             formatPhone phone = plus_sign :: strip_non_phone q
             /\ canonical_phone (formatPhone phone) = true)).
Proof.
  split; [apply formatPhone_falsy|].
  intros Ht. destruct (formatPhone_starts phone Ht) as [Hs Hc].
  split; [exact Hs|]. split; [exact Hc|].
  destruct phone as [[|c p]|]; try discriminate.
  simpl default.
  split; [intros Hst; rewrite formatPhone_nonempty, Hst; reflexivity|].
  split; [intros Hst; rewrite formatPhone_nonempty, Hst; reflexivity|].
  split.
  { rewrite formatPhone_nonempty.
    destruct (startsWith plus_sign (strip_non_phone (c :: p))).
    - apply strip_non_phone_digits.
    - change (List.filter is_digit (plus_sign :: ?l))
        with (List.filter is_digit l).
      apply strip_non_phone_digits. }
  split; [apply formatPhone_canonical_iff|].
  split.
  - intros Hno. apply formatPhone_canonical_iff.
    exists (strip_non_phone (c :: p)).
    split; [apply strip_non_phone_no_plus; exact Hno | left; reflexivity].
  - intros q Hq Hno. inversion Hq. subst c p.
    assert (Heq : formatPhone (Some (plus_sign :: q))
                  = plus_sign :: strip_non_phone q).
    { rewrite formatPhone_nonempty, strip_non_phone_plus. reflexivity. }
    split; [exact Heq|].
    etransitivity; [exact (f_equal canonical_phone Heq)|].
    unfold canonical_phone. rewrite N.eqb_refl.
    apply strip_non_phone_no_plus. exact Hno.
Qed.

Lemma formatPhone_form_witness :
  formatPhone (Some (lit "52 (55) 1234-5678")) = lit "+525512345678"
  /\ canonical_phone (formatPhone (Some (lit "52 (55) 1234-5678"))) = true
  /\ formatPhone (Some (lit "+52 (55) 1234-5678")) = lit "+525512345678"
  /\ canonical_phone (formatPhone (Some (lit "+52 (55) 1234-5678"))) = true
  /\ formatPhone (Some []) = [].
Proof.
  assert (Hno : ~ In plus_sign (lit "52 (55) 1234-5678")).
  { vm_compute. intuition discriminate. }
  destruct (formatPhone_form (Some (lit "52 (55) 1234-5678"))) as [_ H].
  destruct (H eq_refl) as (_ & _ & _ & Hput & _ & _ & Hcanon & _).
  destruct (formatPhone_form (Some (lit "+52 (55) 1234-5678"))) as [_ H'].
  destruct (H' eq_refl) as (_ & _ & Hkeep & _ & _ & _ & _ & Hlead).
  split; [exact (Hput eq_refl)|]. split; [exact (Hcanon Hno)|].
  split; [exact (Hkeep eq_refl)|]. split.
  - exact (proj2 (Hlead (lit "52 (55) 1234-5678") eq_refl Hno)).
  - exact (proj1 (formatPhone_form (Some [])) eq_refl).
Defined.

(** C9.  [formatPhone] is idempotent: formatting a formatted number
    changes nothing. *)
Theorem formatPhone_idempotent (phone : option jsstring) :
  formatPhone (Some (formatPhone phone)) = formatPhone phone.
Proof.
  destruct (truthy_opt phone) eqn:Ht.
  - destruct (formatPhone_starts phone Ht) as [Hs Hc].
    apply formatPhone_fixed; assumption.
  - rewrite (formatPhone_falsy phone Ht). reflexivity.
Qed.

End FormatPhoneFacts.

(** ** truncateText *)

Section TruncateTextFacts.

Import formatters.

Lemma substring_prefix (t : jsstring) (n : Z) :
  0 <= n <= Z.of_nat (length t) ->
  substring t 0 n = take (Z.to_nat n) t.
Proof.
  intros Hn. unfold substring.
  rewrite (Z.max_l 0 0) by lia.
  rewrite (Z.min_l 0 (Z.of_nat (length t))) by lia.
  rewrite (Z.max_l n 0) by lia.
  rewrite (Z.min_l n (Z.of_nat (length t))) by lia.
  rewrite (Z.min_l 0 n) by lia.
  rewrite (Z.max_r 0 n) by lia.
  rewrite Z.sub_0_r. reflexivity.
Qed.

Lemma truncateText_short (t : jsstring) (maxLength : Z) :
  Z.of_nat (length t) <= maxLength ->
  truncateText (Some t) maxLength = t.
Proof.
  intros Hle. unfold truncateText.
  destruct t as [|c t]; [reflexivity|].
  simpl truthy_opt. simpl negb. cbv iota. simpl default.
  rewrite Z.gtb_ltb.
  destruct (Z.ltb_spec maxLength (Z.of_nat (length (c :: t)))); [lia|].
  reflexivity.
Qed.

Lemma truncateText_long (t : jsstring) (maxLength : Z) :
  0 <= maxLength < Z.of_nat (length t) ->
  truncateText (Some t) maxLength = take (Z.to_nat maxLength) t ++ lit "...".
Proof.
  intros Hlt. unfold truncateText.
  destruct t as [|c t]; [simpl in Hlt; lia|].
  simpl truthy_opt. simpl negb. cbv iota. simpl default.
  rewrite Z.gtb_ltb.
  destruct (Z.ltb_spec maxLength (Z.of_nat (length (c :: t)))); [|lia].
  rewrite substring_prefix by lia. reflexivity.
Qed.

(** C10.  For a positive [maxLength], [truncateText] returns a text of
    at most [maxLength] characters unchanged, and otherwise its first
    [maxLength] characters followed by three dots, [maxLength + 3]
    characters in all; a null or empty text gives the empty string. *)
Theorem truncateText_spec (text : jsstring) (maxLength : Z) :
  0 < maxLength ->
  (Z.of_nat (length text) <= maxLength ->
   truncateText (Some text) maxLength = text)
  /\ (maxLength < Z.of_nat (length text) ->
      truncateText (Some text) maxLength
      = take (Z.to_nat maxLength) text ++ lit "..."
      /\ Z.of_nat (length (truncateText (Some text) maxLength))
         = maxLength + 3)
  /\ truncateText None maxLength = []
  /\ truncateText (Some []) maxLength = [].
Proof.
  intros Hpos. split; [apply truncateText_short|].
  split; [|split; reflexivity].
  intros Hlt. rewrite truncateText_long by lia.
  split; [reflexivity|].
  rewrite length_app, length_take. simpl length. lia.
Qed.

Lemma truncateText_spec_witness :
  truncateText (Some (lit "hola mundo")) 4 = lit "hola..."
  /\ truncateText (Some (lit "hola")) 4 = lit "hola".
Proof.
  destruct (truncateText_spec (lit "hola mundo") 4 ltac:(lia))
    as (_ & Hlong & _).
  destruct (truncateText_spec (lit "hola") 4 ltac:(lia)) as (Hshort & _).
  split.
  - destruct Hlong as [Heq _]; [vm_compute; reflexivity|].
    rewrite Heq. reflexivity.
  - apply Hshort. vm_compute. discriminate.
Defined.

End TruncateTextFacts.

(** ** getMessageStatus and the row actions *)

Section StatusFacts.

Import formatters.

Lemma status_sent_iff (now : Z) (m : Msg.t) :
  status (getMessageStatus now m) = sent <-> Msg.is_sent m = true.
Proof.
  unfold getMessageStatus.
  destruct (Msg.is_sent m); [split; reflexivity|].
  destruct (truthy_opt (Msg.error_message m)); [split; discriminate|].
  destruct (date_leb (Msg.send_time m) now); split; discriminate.
Qed.

(** C1, as stated, fails at the boundary: a message that is neither
    sent nor failed and whose send time equals the clock reading is shown
    as overdue, although its send time is not strictly before now. *)
Lemma overdue_not_strictly_before_now :
  ~ (forall (now : Z) (m : Msg.t),
        status (getMessageStatus now m) = overdue <->
        (Msg.is_sent m = false
         /\ truthy_opt (Msg.error_message m) = false
         /\ exists t, Msg.send_time m = Some t /\ t < now)).
Proof.
  intros H.
  pose (m := {| Msg.id := 1%N; Msg.phone := lit "+15551230000";
                Msg.message := lit "hi"; Msg.send_time := Some 1000;
                Msg.is_sent := false; Msg.sent_at := None;
                Msg.error_message := None |}).
  destruct (proj1 (H 1000 m) eq_refl) as (_ & _ & t & Ht & Hlt).
  inversion Ht. subst t. lia.
Qed.

(** C1 (amended).  The display status is [sent] exactly when the sent
    flag is set; [failed] exactly when there is a non-empty error
    message and the sent flag is not set; among the remaining messages
    it is [overdue] exactly when the send time is at or before now
    ([send_time <= now]) and [pending] otherwise.  The status is a
    function of the record and the clock; nothing is written back. *)
Theorem getMessageStatus_cases (now : Z) (m : Msg.t) :
  (status (getMessageStatus now m) = sent <-> Msg.is_sent m = true)
  /\ (status (getMessageStatus now m) = failed <->
      truthy_opt (Msg.error_message m) = true /\ Msg.is_sent m = false)
  /\ (status (getMessageStatus now m) = overdue <->
      Msg.is_sent m = false
      /\ truthy_opt (Msg.error_message m) = false
      /\ exists t, Msg.send_time m = Some t /\ t <= now)
  /\ (status (getMessageStatus now m) = pending <->
      Msg.is_sent m = false
      /\ truthy_opt (Msg.error_message m) = false
      /\ forall t, Msg.send_time m = Some t -> now < t).
Proof.
  unfold getMessageStatus, date_leb.
  destruct (Msg.is_sent m); simpl.
  { repeat split; intros; try discriminate; try tauto;
      repeat match goal with H : _ /\ _ |- _ => destruct H end;
      discriminate. }
  destruct (truthy_opt (Msg.error_message m)); simpl.
  { repeat split; intros; try discriminate; try tauto;
      repeat match goal with H : _ /\ _ |- _ => destruct H end;
      discriminate. }
  destruct (Msg.send_time m) as [t|]; simpl.
  - destruct (Z.leb_spec t now) as [Hle|Hgt]; simpl.
    + split; [split; discriminate|].
      split; [split; [discriminate | intros [? _]; discriminate]|].
      split; split.
      * intros _. split; [reflexivity|]. split; [reflexivity|].
        exists t. split; [reflexivity | exact Hle].
      * reflexivity.
      * discriminate.
      * intros (_ & _ & Hall). specialize (Hall t eq_refl). lia.
    + split; [split; discriminate|].
      split; [split; [discriminate | intros [? _]; discriminate]|].
      split; split.
      * discriminate.
      * intros (_ & _ & t' & Ht' & Hle). inversion Ht'. lia.
      * intros _. split; [reflexivity|]. split; [reflexivity|].
        intros t' Ht'. inversion Ht'. lia.
      * reflexivity.
  - split; [split; discriminate|].
    split; [split; [discriminate | intros [? _]; discriminate]|].
    split; split.
    + discriminate.
    + intros (_ & _ & t' & Ht' & _). discriminate.
    + intros _. split; [reflexivity|]. split; [reflexivity|].
      intros t' Ht'. discriminate.
    + reflexivity.
Qed.

Import MessageList.

(** C6, as stated, fails: a failed message still gets the edit button. *)
Lemma edit_offered_for_failed_message :
  ~ (forall (now : Z) (m : Msg.t),
        status (getMessageStatus now m) = sent
        \/ status (getMessageStatus now m) = failed ->
        ~ In (Edit (Msg.id m)) (actions m)).
Proof.
  intros H.
  pose (m := {| Msg.id := 7%N; Msg.phone := lit "+15551230000";
                Msg.message := lit "hi"; Msg.send_time := Some 1000;
                Msg.is_sent := false; Msg.sent_at := None;
                Msg.error_message := Some (lit "invalid number") |}).
  apply (H 2000 m).
  - right. reflexivity.
  - left. reflexivity.
Qed.

(** C6 (amended).  The list offers the edit button for exactly the
    messages whose sent flag is not set, that is for every message whose
    display status is not [sent] (pending, overdue and failed ones); it
    offers the delete button for every message, whatever its status;
    a row has no other action. *)
Theorem actions_by_sent_flag (m : Msg.t) :
  (In (Edit (Msg.id m)) (actions m) <-> Msg.is_sent m = false)
  /\ (forall now : Z,
         In (Edit (Msg.id m)) (actions m) <->
         status (getMessageStatus now m) <> sent)
  /\ In (Delete (Msg.id m)) (actions m)
  /\ (forall a, In a (actions m) ->
                a = Edit (Msg.id m) \/ a = Delete (Msg.id m)).
Proof.
  assert (Hedit : In (Edit (Msg.id m)) (actions m) <-> Msg.is_sent m = false).
  { unfold actions. destruct (Msg.is_sent m); simpl.
    - split; [intros [H|[]]; discriminate | discriminate].
    - split; [reflexivity | intros _; left; reflexivity]. }
  split; [exact Hedit|]. split; [|split].
  - intros now. rewrite Hedit.
    pose proof (status_sent_iff now m) as Hsent.
    destruct (Msg.is_sent m).
    + split; [discriminate|]. intros Hn. exfalso. apply Hn.
      apply Hsent. reflexivity.
    + split; [|reflexivity]. intros _ Hs. apply Hsent in Hs. discriminate.
  - unfold actions. apply in_or_app. right. left. reflexivity.
  - unfold actions. intros a Ha. apply in_app_or in Ha.
    destruct Ha as [Ha|[Ha|[]]].
    + destruct (Msg.is_sent m); simpl in Ha; [contradiction|].
      destruct Ha as [Ha|[]]. left. symmetry. exact Ha.
    + right. symmetry. exact Ha.
Qed.

End StatusFacts.

(** ** The response interceptor *)

Section InterceptorFacts.

Import api.

(** C7.  On a failed response the interceptor always hands the caller
    a promise rejected with the same error; it shows one error
    notification exactly when the HTTP status is not 404, and none
    exactly when it is 404. *)
Theorem on_rejected_rejects_and_notifies (e : error) :
  settled (on_rejected e) = Rejected e
  /\ (toasts (on_rejected e) = [toast_error (notification_text e)] <->
      http_status e <> Some 404)
  /\ (toasts (on_rejected e) = [] <-> http_status e = Some 404).
Proof.
  split; [reflexivity|].
  unfold on_rejected, http_status, status_is_not_404. simpl.
  destruct (error_response e) as [r|]; simpl.
  - destruct (Z.eqb_spec (status r) 404) as [Heq|Hne]; simpl.
    + rewrite Heq. split; split; try reflexivity; try discriminate.
      intros Hn. exfalso. apply Hn. reflexivity.
    + split; split; try reflexivity; try discriminate.
      * intros _ H. inversion H. contradiction.
      * intros H. inversion H. contradiction.
  - split; split; try reflexivity; discriminate.
Qed.

End InterceptorFacts.

(** ** The forms *)

Section FormFacts.

Variable Date_parse : jsstring -> option Z.
Variable toISOString : Z -> jsstring.

Lemma collect_two n1 r1 v1 n2 r2 v2 :
  hookform.collect [(n1, r1, v1); (n2, r2, v2)] = [] <->
  hookform.validateField r1 v1 = None /\ hookform.validateField r2 v2 = None.
Proof.
  unfold hookform.collect. simpl.
  destruct (hookform.validateField r1 v1), (hookform.validateField r2 v2);
    simpl; split; try discriminate; try tauto;
    intros [? ?]; discriminate.
Qed.

Lemma collect_three n1 r1 v1 n2 r2 v2 n3 r3 v3 :
  hookform.collect [(n1, r1, v1); (n2, r2, v2); (n3, r3, v3)] = [] <->
  hookform.validateField r1 v1 = None
  /\ hookform.validateField r2 v2 = None
  /\ hookform.validateField r3 v3 = None.
Proof.
  unfold hookform.collect. simpl.
  destruct (hookform.validateField r1 v1), (hookform.validateField r2 v2),
    (hookform.validateField r3 v3);
    simpl; split; try discriminate; try tauto;
    intros (? & ? & ?); discriminate.
Qed.

(** A message field under [required], an upper bound and possibly a
    lower bound passes exactly when its length is within the bounds. *)
Lemma bounded_text_field (r : hookform.rules) (lo hi : Z) (body : jsstring) :
  hookform.required r <> None ->
  (exists msg, hookform.maxLength r = Some (hi, msg)) ->
  (hookform.minLength r = None /\ lo = 1
   \/ exists msg, hookform.minLength r = Some (lo, msg)) ->
  1 <= lo ->
  hookform.pattern r = None ->
  hookform.validate r = None ->
  hookform.validateField r body = None <->
  lo <= Z.of_nat (length body) <= hi.
Proof.
  intros Hreq [mx Hmax] Hmin Hlo Hpat Hval.
  unfold hookform.validateField, hookform.check_required,
    hookform.check_length, hookform.check_pattern, hookform.check_validate,
    hookform.exceeds_max, hookform.below_min.
  rewrite Hmax, Hpat, Hval.
  destruct (hookform.required r) as [req|]; [|contradiction].
  destruct body as [|c body].
  { simpl. split; [discriminate | lia]. }
  cbn [truthy negb hookform.or_else].
  set (n := Z.of_nat (length (c :: body))).
  assert (Hn : 1 <= n) by (unfold n; simpl length; lia).
  rewrite Z.gtb_ltb.
  destruct (Z.ltb_spec hi n) as [Hgt|Hle].
  { simpl. split; [discriminate | lia]. }
  destruct Hmin as [[Hmin ->]|[mn Hmin]]; rewrite Hmin.
  - simpl. split; [lia | reflexivity].
  - destruct (Z.ltb_spec n lo) as [Hlt|Hge]; simpl.
    + split; [discriminate | lia].
    + split; [lia | reflexivity].
Qed.

Lemma create_message_field (body : jsstring) :
  hookform.validateField create_message_rules body = None <->
  1 <= Z.of_nat (length body) <= 4096.
Proof.
  apply bounded_text_field; try reflexivity; try lia; try discriminate.
  - eexists. reflexivity.
  - right. eexists. reflexivity.
Qed.

Lemma edit_message_field (body : jsstring) :
  hookform.validateField edit_message_rules body = None <->
  1 <= Z.of_nat (length body) <= 1000.
Proof.
  apply bounded_text_field; try reflexivity; try lia; try discriminate.
  - eexists. reflexivity.
  - left. split; reflexivity.
Qed.

(** C4, as stated, fails for the edit form: a body of 1001 characters
    is within 1 to 4096 and the edit form turns it down. *)
Lemma edit_form_rejects_1001_characters :
  ~ (forall body : jsstring,
        1 <= Z.of_nat (length body) <= 4096 ->
        hookform.validateField edit_message_rules body = None).
Proof.
  intros H. specialize (H (replicate 1001 97%N)).
  assert (Hlen : 1 <= Z.of_nat (length (replicate 1001 97%N)) <= 4096).
  { rewrite length_replicate. lia. }
  specialize (H Hlen). vm_compute in H. discriminate.
Qed.

(** C4 (amended).  The schedule form accepts a message body exactly
    when it has 1 to 4096 characters; the edit form accepts it exactly
    when it has 1 to 1000 characters.  Either form rejects an empty
    body, and a submit that reaches the API had a body within the
    form's bounds. *)
Theorem message_body_bounds (body : jsstring) :
  (hookform.validateField create_message_rules body = None <->
   1 <= Z.of_nat (length body) <= 4096)
  /\ (hookform.validateField edit_message_rules body = None <->
      1 <= Z.of_nat (length body) <= 1000)
  /\ (forall now_validate now_submit data p,
         message data = body ->
         create_handleSubmit Date_parse toISOString now_validate now_submit data
         = Requested p ->
         1 <= Z.of_nat (length body) <= 4096)
  /\ (forall messageId now data p,
         message data = body ->
         edit_handleSubmit Date_parse toISOString messageId now data
         = Requested p ->
         1 <= Z.of_nat (length body) <= 1000).
Proof.
  split; [apply create_message_field|].
  split; [apply edit_message_field|].
  split.
  - intros now_validate now_submit data p <-.
    unfold create_handleSubmit.
    destruct (hookform.collect _) eqn:Hc; [|discriminate].
    intros _. apply collect_three in Hc.
    apply create_message_field. exact (proj1 (proj2 Hc)).
  - intros messageId now data p <-.
    unfold edit_handleSubmit.
    destruct (hookform.collect _) eqn:Hc; [|discriminate].
    intros _. apply collect_three in Hc.
    apply edit_message_field. exact (proj1 (proj2 Hc)).
Qed.

End FormFacts.

Lemma message_body_bounds_witness :
  hookform.validateField create_message_rules (replicate 1001 97%N) = None
  /\ hookform.validateField edit_message_rules (replicate 1000 97%N) = None.
Proof.
  split.
  - apply (message_body_bounds example_parse example_iso (replicate 1001 97%N)).
    rewrite length_replicate. lia.
  - apply (message_body_bounds example_parse example_iso (replicate 1000 97%N)).
    rewrite length_replicate. lia.
Defined.

Section SubmitFacts.

Variable Date_parse : jsstring -> option Z.
Variable toISOString : Z -> jsstring.

Lemma not_in_future_spec (text : jsstring) (now st : Z) :
  Date_parse text = Some st ->
  not_in_future Date_parse text now = (st <=? now).
Proof.
  intros Hp. unfold not_in_future, formatters.date_leb. rewrite Hp.
  reflexivity.
Qed.

(** The send-time field of the schedule form, once a date is typed. *)
Lemma create_send_time_field (now : Z) (text : jsstring) (st : Z) :
  text <> [] ->
  Date_parse text = Some st ->
  hookform.validateField (create_send_time_rules Date_parse now) text
  = if st <=? now then Some future_date_text else None.
Proof.
  intros Hne Hp. destruct text as [|c text]; [contradiction|].
  unfold hookform.validateField, hookform.check_required,
    hookform.check_length, hookform.check_pattern, hookform.check_validate,
    hookform.exceeds_max, hookform.below_min, create_send_time_rules.
  cbn [hookform.required hookform.maxLength hookform.minLength
       hookform.pattern hookform.validate truthy negb hookform.or_else].
  rewrite (not_in_future_spec _ _ _ Hp).
  destruct (st <=? now); reflexivity.
Qed.

Lemma edit_send_time_field (text : jsstring) :
  text <> [] ->
  hookform.validateField edit_send_time_rules text = None.
Proof.
  intros Hne. destruct text as [|c text]; [contradiction|]. reflexivity.
Qed.

Lemma create_handleSubmit_fields_ok now_validate now_submit data st :
  create_fields_ok data ->
  Date_parse (send_time data) = Some st ->
  create_handleSubmit Date_parse toISOString now_validate now_submit data
  = if st <=? now_validate
    then Invalid [("send_time"%string, future_date_text)]
    else create_onSubmit Date_parse toISOString now_submit data.
Proof.
  intros (Hphone & Hmsg & Hne) Hp.
  unfold create_handleSubmit, hookform.collect. simpl omap.
  rewrite Hphone, Hmsg, (create_send_time_field _ _ _ Hne Hp).
  destruct (st <=? now_validate); reflexivity.
Qed.

Lemma edit_handleSubmit_fields_ok messageId now data :
  edit_fields_ok data ->
  edit_handleSubmit Date_parse toISOString messageId now data
  = edit_onSubmit Date_parse toISOString messageId now data.
Proof.
  intros (Hphone & Hmsg & Hne).
  unfold edit_handleSubmit, hookform.collect. simpl omap.
  rewrite Hphone, Hmsg, (edit_send_time_field _ Hne). reflexivity.
Qed.

Lemma create_onSubmit_dated now data st :
  Date_parse (send_time data) = Some st ->
  create_onSubmit Date_parse toISOString now data
  = if st <=? now
    then Stopped (toast_error (lit future_date_text))
    else Requested {| phone := formatters.formatPhone (Some (phone data));
                      message := trim (message data);
                      send_time := toISOString st |}.
Proof.
  intros Hp. unfold create_onSubmit.
  rewrite Hp, (not_in_future_spec _ _ _ Hp). reflexivity.
Qed.

Lemma edit_onSubmit_dated messageId now data st :
  Date_parse (send_time data) = Some st ->
  edit_onSubmit Date_parse toISOString messageId now data
  = if st <=? now
    then Stopped (toast_error (lit future_date_text))
    else Requested (messageId,
                    {| phone := formatters.formatPhone (Some (phone data));
                       message := trim (message data);
                       send_time := toISOString st |}).
Proof.
  intros Hp. unfold edit_onSubmit.
  rewrite Hp, (not_in_future_spec _ _ _ Hp). reflexivity.
Qed.

(** C5.  Let the typed send time denote the instant [st] and let
    [now_submit] be the clock when the submit handler runs (the
    schedule form's field rule read it earlier, at [now_validate]).
    If [st <= now_submit], neither form calls the API: with the other
    fields in order the schedule form stops with the error "La fecha y
    hora debe ser en el futuro", on the field or as a notification, and
    the edit form stops with the same notification.  If
    [now_submit < st], both forms call the API.  [st = now_submit]
    falls in the first case. *)
Theorem send_time_must_be_future
    (now_validate now_submit : Z) (messageId : N)
    (data : schedule_fields) (st : Z) :
  Date_parse (send_time data) = Some st ->
  now_validate <= now_submit ->
  (st <= now_submit ->
   (forall p,
       create_handleSubmit Date_parse toISOString now_validate now_submit data
       <> Requested p)
   /\ (forall p,
          edit_handleSubmit Date_parse toISOString messageId now_submit data
          <> Requested p)
   /\ (create_fields_ok data ->
       create_handleSubmit Date_parse toISOString now_validate now_submit data
       = Invalid [("send_time"%string, future_date_text)]
       \/ create_handleSubmit Date_parse toISOString now_validate now_submit
            data
          = Stopped (toast_error (lit future_date_text)))
   /\ (edit_fields_ok data ->
       edit_handleSubmit Date_parse toISOString messageId now_submit data
       = Stopped (toast_error (lit future_date_text))))
  /\ (now_submit < st ->
      (create_fields_ok data ->
       create_handleSubmit Date_parse toISOString now_validate now_submit data
       = Requested {| phone := formatters.formatPhone (Some (phone data));
                      message := trim (message data);
                      send_time := toISOString st |})
      /\ (edit_fields_ok data ->
          edit_handleSubmit Date_parse toISOString messageId now_submit data
          = Requested (messageId,
                       {| phone := formatters.formatPhone (Some (phone data));
                          message := trim (message data);
                          send_time := toISOString st |}))).
Proof.
  intros Hp Hclock. split.
  - intros Hpast.
    assert (Hleb : (st <=? now_submit) = true) by (apply Z.leb_le; exact Hpast).
    split; [|split; [|split]].
    + intros p. unfold create_handleSubmit.
      destruct (hookform.collect _); [|discriminate].
      rewrite (create_onSubmit_dated _ _ _ Hp), Hleb. discriminate.
    + intros p. unfold edit_handleSubmit.
      destruct (hookform.collect _); [|discriminate].
      rewrite (edit_onSubmit_dated _ _ _ _ Hp), Hleb. discriminate.
    + intros Hok.
      rewrite (create_handleSubmit_fields_ok _ _ _ _ Hok Hp).
      destruct (st <=? now_validate); [left; reflexivity|].
      right. rewrite (create_onSubmit_dated _ _ _ Hp), Hleb. reflexivity.
    + intros Hok.
      rewrite (edit_handleSubmit_fields_ok _ _ _ Hok).
      rewrite (edit_onSubmit_dated _ _ _ _ Hp), Hleb. reflexivity.
  - intros Hfuture.
    assert (Hs : (st <=? now_submit) = false)
      by (apply Z.leb_gt; exact Hfuture).
    assert (Hv : (st <=? now_validate) = false) by (apply Z.leb_gt; lia).
    split.
    + intros Hok.
      rewrite (create_handleSubmit_fields_ok _ _ _ _ Hok Hp), Hv.
      rewrite (create_onSubmit_dated _ _ _ Hp), Hs. reflexivity.
    + intros Hok.
      rewrite (edit_handleSubmit_fields_ok _ _ _ Hok).
      rewrite (edit_onSubmit_dated _ _ _ _ Hp), Hs. reflexivity.
Qed.

Lemma test_handleSubmit_fields_ok (direct : direct_fields) :
  hookform.validateField test_phone_rules (direct_phone direct) = None ->
  hookform.validateField test_message_rules (direct_message direct) = None ->
  test_handleSubmit direct
  = Requested
      {| direct_phone := formatters.formatPhone (Some (direct_phone direct));
         direct_message := trim (direct_message direct) |}.
Proof.
  intros Hphone Hmsg. unfold test_handleSubmit, hookform.collect.
  simpl omap. rewrite Hphone, Hmsg. reflexivity.
Qed.

(** C8.  The schedule form, the edit form and the direct-send form each
    call the API once their fields are in order (and, for the two dated
    forms, the send time is in the future), and whenever one of them
    calls the API, the message of the payload is the typed body with its
    leading and trailing white space removed. *)
Theorem submitted_body_is_trimmed
    (now_validate now_submit : Z) (messageId : N)
    (data : schedule_fields) (direct : direct_fields) :
  (forall p,
      create_handleSubmit Date_parse toISOString now_validate now_submit data
      = Requested p ->
      message p = trim (message data)
      /\ trimmed_from (message data) (message p))
  /\ (forall p,
         edit_handleSubmit Date_parse toISOString messageId now_submit data
         = Requested p ->
         message p.2 = trim (message data)
         /\ trimmed_from (message data) (message p.2))
  /\ (forall p,
         test_handleSubmit direct = Requested p ->
         direct_message p = trim (direct_message direct)
         /\ trimmed_from (direct_message direct) (direct_message p))
  /\ (forall st,
         create_fields_ok data ->
         Date_parse (send_time data) = Some st ->
         now_validate < st ->
         now_submit < st ->
         exists p,
           create_handleSubmit Date_parse toISOString now_validate now_submit
             data = Requested p
           /\ message p = trim (message data))
  /\ (forall st,
         edit_fields_ok data ->
         Date_parse (send_time data) = Some st ->
         now_submit < st ->
         exists p,
           edit_handleSubmit Date_parse toISOString messageId now_submit data
           = Requested p
           /\ p.1 = messageId
           /\ message p.2 = trim (message data))
  /\ (hookform.validateField test_phone_rules (direct_phone direct) = None ->
      hookform.validateField test_message_rules (direct_message direct)
      = None ->
      exists p,
        test_handleSubmit direct = Requested p
        /\ direct_message p = trim (direct_message direct)).
Proof.
  split; [|split; [|split; [|split; [|split]]]].
  - intros p. unfold create_handleSubmit.
    destruct (hookform.collect _); [|discriminate].
    unfold create_onSubmit.
    destruct (Date_parse (send_time data)); [|discriminate].
    destruct (not_in_future _ _ _); [discriminate|].
    intros H. inversion H. simpl. split; [reflexivity|].
    apply trim_trimmed_from.
  - intros p. unfold edit_handleSubmit.
    destruct (hookform.collect _); [|discriminate].
    unfold edit_onSubmit.
    destruct (Date_parse (send_time data)); [|discriminate].
    destruct (not_in_future _ _ _); [discriminate|].
    intros H. inversion H. simpl. split; [reflexivity|].
    apply trim_trimmed_from.
  - intros p. unfold test_handleSubmit.
    destruct (hookform.collect _); [|discriminate].
    unfold test_onSubmit.
    intros H. inversion H. simpl. split; [reflexivity|].
    apply trim_trimmed_from.
  - intros st Hok Hp Hv Hs.
    rewrite (create_handleSubmit_fields_ok _ _ _ _ Hok Hp).
    apply Z.leb_gt in Hv. rewrite Hv.
    rewrite (create_onSubmit_dated _ _ _ Hp).
    apply Z.leb_gt in Hs. rewrite Hs.
    eexists. split; reflexivity.
  - intros st Hok Hp Hs.
    rewrite (edit_handleSubmit_fields_ok _ _ _ Hok).
    rewrite (edit_onSubmit_dated _ _ _ _ Hp).
    apply Z.leb_gt in Hs. rewrite Hs.
    eexists. split; [reflexivity|]. split; reflexivity.
  - intros Hphone Hmsg.
    rewrite (test_handleSubmit_fields_ok _ Hphone Hmsg).
    eexists. split; reflexivity.
Qed.

End SubmitFacts.

Lemma send_time_must_be_future_witness :
  create_handleSubmit example_parse example_iso 10 12 example_data
  = Requested {| phone := lit "+5512345678";
                 message := lit "hola";
                 send_time := example_iso 16 |}
  /\ edit_handleSubmit example_parse example_iso 7 16 example_data
     = Stopped (toast_error (lit future_date_text)).
Proof.
  assert (Hcreate : create_fields_ok example_data).
  { repeat split. discriminate. }
  assert (Hedit : edit_fields_ok example_data).
  { repeat split. discriminate. }
  split.
  - destruct (send_time_must_be_future example_parse example_iso
                10 12 7%N example_data 16 eq_refl ltac:(lia)) as [_ Hfuture].
    exact (proj1 (Hfuture ltac:(lia)) Hcreate).
  - destruct (send_time_must_be_future example_parse example_iso
                16 16 7%N example_data 16 eq_refl ltac:(lia)) as [Hpast _].
    destruct (Hpast ltac:(lia)) as (_ & _ & _ & Hstop).
    exact (Hstop Hedit).
Defined.

Lemma submitted_body_is_trimmed_witness :
  create_handleSubmit example_parse example_iso 10 12 example_data
  = Requested {| phone := lit "+5512345678";
                 message := lit "hola";
                 send_time := example_iso 16 |}
  /\ trimmed_from (lit "  hola  ") (lit "hola")
  /\ test_handleSubmit example_direct
     = Requested {| direct_phone := lit "+525512345678";
                    direct_message := lit "prueba" |}
  /\ trimmed_from (lit " prueba ") (lit "prueba")
  /\ (exists p,
         edit_handleSubmit example_parse example_iso 7 12 example_data
         = Requested p
         /\ p.1 = 7%N
         /\ message p.2 = lit "hola")
  /\ trimmed_from (lit "  hola  ") (lit "hola")
  /\ (exists p,
         create_handleSubmit example_parse example_iso 10 12 example_data
         = Requested p
         /\ message p = lit "hola")
  /\ (exists p,
         test_handleSubmit example_direct = Requested p
         /\ direct_message p = lit "prueba").
Proof.
  assert (Hcreate : create_fields_ok example_data).
  { repeat split. discriminate. }
  assert (Hedit : edit_fields_ok example_data).
  { repeat split. discriminate. }
  destruct (submitted_body_is_trimmed example_parse example_iso
              10 12 7%N example_data example_direct)
    as (Hc & He & Ht & Hcs & Hes & Hts).
  split; [reflexivity|]. split.
  { exact (proj2 (Hc {| phone := lit "+5512345678";
                        message := lit "hola";
                        send_time := example_iso 16 |} eq_refl)). }
  split; [reflexivity|]. split.
  { exact (proj2 (Ht {| direct_phone := lit "+525512345678";
                        direct_message := lit "prueba" |} eq_refl)). }
  split.
  { exact (Hes 16 Hedit eq_refl ltac:(lia)). }
  split.
  { exact (proj2 (He (7%N, {| phone := lit "+5512345678";
                              message := lit "hola";
                              send_time := example_iso 16 |}) eq_refl)). }
  split.
  { exact (Hcs 16 Hcreate eq_refl ltac:(lia) ltac:(lia)). }
  exact (Hts eq_refl eq_refl).
Defined.

(** ** The message store: exclusive claims *)

Section StoreFacts.

Import Store.

(** The store after marking a list of ids. *)
Lemma lookup_marked (ids : list N) (s : gmap N record) (k : N) :
  foldr (alter mark_in_flight) s ids !! k
  = if decide (k ∈ ids) then mark_in_flight <$> s !! k else s !! k.
Proof.
  induction ids as [|a ids IH]; simpl.
  - destruct (decide (k ∈ [])) as [H|_]; [|reflexivity].
    apply elem_of_nil in H. contradiction.
  - destruct (decide (a = k)) as [->|Hne].
    + rewrite lookup_alter_eq, IH.
      destruct (decide (k ∈ k :: ids)) as [_|Hn].
      * destruct (decide (k ∈ ids)); [|reflexivity].
        destruct (s !! k); reflexivity.
      * exfalso. apply Hn. left.
    + rewrite lookup_alter_ne by exact Hne. rewrite IH.
      destruct (decide (k ∈ ids)) as [Hin|Hnin];
        destruct (decide (k ∈ a :: ids)) as [Hin'|Hnin']; try reflexivity.
      * exfalso. apply Hnin'. right. exact Hin.
      * exfalso. apply elem_of_cons in Hin'.
        destruct Hin' as [->|Hin'];
          [apply Hne; reflexivity | exact (Hnin Hin')].
Qed.

Lemma elem_of_due_ids (now : Z) (s : gmap N record) (k : N) :
  k ∈ due_ids now s <-> exists r, s !! k = Some r /\ is_due now r = true.
Proof.
  unfold due_ids. rewrite list_elem_of_fmap. split.
  - intros [[k' r] [-> Hin]]. apply list_elem_of_In, filter_In in Hin.
    destruct Hin as [Hin Hdue]. apply list_elem_of_In in Hin.
    apply elem_of_map_to_list in Hin. exists r. split; assumption.
  - intros [r [Hk Hdue]]. exists (k, r). split; [reflexivity|].
    apply list_elem_of_In, filter_In. split; [|exact Hdue].
    apply list_elem_of_In, elem_of_map_to_list. exact Hk.
Qed.

Lemma is_due_spec (now : Z) (r : record) :
  is_due now r = true <-> state r = pending /\ send_time r <= now.
Proof.
  unfold is_due. destruct (state r); split;
    try discriminate; try (intros [? _]; discriminate).
  - intros H. apply Z.leb_le in H. split; [reflexivity | exact H].
  - intros [_ H]. apply Z.leb_le. exact H.
Qed.

(** One call: at most [limit] ids, each of a pending message that is
    due, each in flight afterwards; the other messages are untouched. *)
Lemma claim_due_one (now : Z) (limit : nat) (s : gmap N record) :
  (length (claim_due now limit s).1 <= limit)%nat
  /\ (forall k, k ∈ (claim_due now limit s).1 ->
                exists r, s !! k = Some r
                          /\ state r = pending
                          /\ send_time r <= now
                          /\ (claim_due now limit s).2 !! k
                             = Some (mark_in_flight r))
  /\ (forall k, k ∉ (claim_due now limit s).1 ->
                (claim_due now limit s).2 !! k = s !! k).
Proof.
  unfold claim_due. simpl. split; [|split].
  - rewrite length_take. lia.
  - intros k Hk. pose proof Hk as Hk'.
    apply subseteq_take, elem_of_due_ids in Hk'.
    destruct Hk' as [r [Hr Hdue]]. apply is_due_spec in Hdue.
    exists r. split; [exact Hr|]. split; [tauto|]. split; [tauto|].
    rewrite lookup_marked, Hr.
    destruct (decide (k ∈ take limit (due_ids now s))); [reflexivity|].
    contradiction.
  - intros k Hk. rewrite lookup_marked.
    destruct (decide (k ∈ take limit (due_ids now s))); [contradiction|].
    reflexivity.
Qed.

(** C2.  Two concurrent invocations of [claim_due], taking effect in
    either order as the atomic steps they are, never return the same
    id: no id of the first result is in the second.  Each call returns
    at most [limit] ids, every one of a message that was pending with
    [send_time <= now] and is in flight afterwards; messages in neither
    result are left as they were. *)
Theorem claim_due_exclusive
    (now1 : Z) (limit1 : nat) (now2 : Z) (limit2 : nat)
    (s : gmap N record) (ids1 ids2 : list N) (s' : gmap N record) :
  claim_twice now1 limit1 now2 limit2 s = (ids1, ids2, s') ->
  (forall k, k ∈ ids1 -> k ∉ ids2)
  /\ (length ids1 <= limit1)%nat
  /\ (length ids2 <= limit2)%nat
  /\ (forall k, k ∈ ids1 ->
                exists r, s !! k = Some r
                          /\ state r = pending
                          /\ send_time r <= now1
                          /\ s' !! k = Some (mark_in_flight r))
  /\ (forall k, k ∈ ids2 ->
                exists r, s !! k = Some r
                          /\ state r = pending
                          /\ send_time r <= now2
                          /\ s' !! k = Some (mark_in_flight r))
  /\ (forall k, k ∉ ids1 -> k ∉ ids2 -> s' !! k = s !! k).
Proof.
  unfold claim_twice.
  pose proof (claim_due_one now1 limit1 s) as (Hlen1 & Hin1 & Hout1).
  destruct (claim_due now1 limit1 s) as [i1 s1]. simpl in Hlen1, Hin1, Hout1.
  pose proof (claim_due_one now2 limit2 s1) as (Hlen2 & Hin2 & Hout2).
  destruct (claim_due now2 limit2 s1) as [i2 s2]. simpl in Hlen2, Hin2, Hout2.
  intros H. inversion H. subst i1 i2 s2. clear H.
  assert (Hexcl : forall k, k ∈ ids1 -> k ∉ ids2).
  { intros k Hk1 Hk2.
    destruct (Hin1 k Hk1) as (r & _ & _ & _ & Hs1).
    destruct (Hin2 k Hk2) as (r2 & Hs1' & Hpending & _).
    rewrite Hs1 in Hs1'. inversion Hs1'. subst r2. discriminate. }
  split; [exact Hexcl|]. split; [exact Hlen1|]. split; [exact Hlen2|].
  split; [|split].
  - intros k Hk. destruct (Hin1 k Hk) as (r & Hr & Hp & Hdue & Hs1).
    exists r. repeat (split; [assumption|]).
    rewrite (Hout2 k (Hexcl k Hk)). exact Hs1.
  - intros k Hk. destruct (Hin2 k Hk) as (r & Hr & Hp & Hdue & Hs2).
    exists r. split; [|repeat (split; [assumption|]); exact Hs2].
    destruct (decide (k ∈ ids1)) as [Hk1|Hk1].
    + exfalso. exact (Hexcl k Hk1 Hk).
    + rewrite <- (Hout1 k Hk1). exact Hr.
  - intros k Hk1 Hk2. rewrite (Hout2 k Hk2). exact (Hout1 k Hk1).
Qed.

Lemma claim_due_exclusive_witness :
  (claim_twice 150 5 250 5 example_store).1.1 = [1%N]
  /\ (claim_twice 150 5 250 5 example_store).1.2 = [2%N]
  /\ 1%N ∉ (claim_twice 150 5 250 5 example_store).1.2.
Proof.
  assert (H : claim_twice 150 5 250 5 example_store
              = ((claim_twice 150 5 250 5 example_store).1.1,
                 (claim_twice 150 5 250 5 example_store).1.2,
                 (claim_twice 150 5 250 5 example_store).2)).
  { destruct (claim_twice 150 5 250 5 example_store) as [[i1 i2] s'].
    reflexivity. }
  assert (H1 : (claim_twice 150 5 250 5 example_store).1.1 = [1%N]).
  { vm_compute. reflexivity. }
  split; [exact H1|]. split; [vm_compute; reflexivity|].
  apply (proj1 (claim_due_exclusive _ _ _ _ _ _ _ _ H)).
  rewrite H1. apply list_elem_of_In. left. reflexivity.
Defined.

End StoreFacts.

(** * Further properties of the client *)

(** ** When a form calls the API *)

(** No field error is collected exactly when every field passes. *)
Lemma collect_nil_iff (fields : list (string * hookform.rules * jsstring)) :
  hookform.collect fields = [] <->
  List.Forall (fun f => hookform.validateField f.1.2 f.2 = None) fields.
Proof.
  unfold hookform.collect.
  induction fields as [|[[name r] value] fields IH]; simpl.
  - split; [constructor | reflexivity].
  - destruct (hookform.validateField r value) eqn:Hv; simpl.
    + split; [discriminate|]. intros H. inversion H as [|? ? Hf _].
      simpl in Hf. rewrite Hv in Hf. discriminate.
    + rewrite IH. split.
      * intros H. constructor; [exact Hv | exact H].
      * intros H. inversion H. assumption.
Qed.

Lemma collect_nil_two n1 r1 v1 n2 r2 v2 :
  hookform.collect [(n1, r1, v1); (n2, r2, v2)] = [] <->
  hookform.validateField r1 v1 = None /\ hookform.validateField r2 v2 = None.
Proof.
  rewrite collect_nil_iff. split.
  - intros H. inversion H as [|? ? Ha H']. inversion H' as [|? ? Hb _].
    split; assumption.
  - intros [H1 H2]. repeat constructor; assumption.
Qed.

Lemma collect_nil_three n1 r1 v1 n2 r2 v2 n3 r3 v3 :
  hookform.collect [(n1, r1, v1); (n2, r2, v2); (n3, r3, v3)] = [] <->
  hookform.validateField r1 v1 = None
  /\ hookform.validateField r2 v2 = None
  /\ hookform.validateField r3 v3 = None.
Proof.
  rewrite collect_nil_iff. split.
  - intros H. inversion H as [|? ? Ha H']. inversion H' as [|? ? Hb H''].
    inversion H'' as [|? ? Hc _]. repeat split; assumption.
  - intros (H1 & H2 & H3). repeat constructor; assumption.
Qed.

Section SubmitConditions.

Variable Date_parse : jsstring -> option Z.
Variable toISOString : Z -> jsstring.

(** A field under [required] and a pattern that rejects the empty
    string passes exactly when the pattern matches. *)
Lemma pattern_field (r : hookform.rules) (matches : jsstring -> bool)
    (value : jsstring) :
  hookform.required r <> None ->
  hookform.maxLength r = None ->
  hookform.minLength r = None ->
  (exists msg, hookform.pattern r = Some (matches, msg)) ->
  hookform.validate r = None ->
  matches [] = false ->
  hookform.validateField r value = None <-> matches value = true.
Proof.
  intros Hreq Hmax Hmin [msg Hpat] Hval Hnil.
  unfold hookform.validateField, hookform.check_required,
    hookform.check_length, hookform.check_pattern, hookform.check_validate,
    hookform.exceeds_max, hookform.below_min.
  rewrite Hmax, Hmin, Hpat, Hval.
  destruct (hookform.required r) as [req|]; [|contradiction].
  destruct value as [|c value].
  - simpl. rewrite Hnil. split; discriminate.
  - cbn [truthy negb hookform.or_else andb].
    destruct (matches (c :: value)); simpl; split;
      try reflexivity; discriminate.
Qed.

Lemma create_phone_field (value : jsstring) :
  hookform.validateField create_phone_rules value = None <->
  PhonePattern.create value = true.
Proof.
  apply pattern_field; try reflexivity; try discriminate.
  eexists. reflexivity.
Qed.

Lemma edit_phone_field (value : jsstring) :
  hookform.validateField edit_phone_rules value = None <->
  PhonePattern.edit value = true.
Proof.
  apply pattern_field; try reflexivity; try discriminate.
  eexists. reflexivity.
Qed.

Lemma test_phone_field (value : jsstring) :
  hookform.validateField test_phone_rules value = None <->
  PhonePattern.test value = true.
Proof.
  apply pattern_field; try reflexivity; try discriminate.
  eexists. reflexivity.
Qed.

Lemma test_message_field (body : jsstring) :
  hookform.validateField test_message_rules body = None <->
  1 <= Z.of_nat (length body) <= 4096.
Proof.
  apply bounded_text_field; try reflexivity; try lia; try discriminate.
  - eexists. reflexivity.
  - right. eexists. reflexivity.
Qed.

Lemma required_only_field (text : jsstring) :
  hookform.validateField edit_send_time_rules text = None <-> text <> [].
Proof.
  destruct text as [|c text]; simpl.
  - split; [discriminate | intros H; contradiction].
  - split; [discriminate | reflexivity].
Qed.

Lemma create_send_time_field_iff (now : Z) (text : jsstring) :
  hookform.validateField (create_send_time_rules Date_parse now) text = None
  <-> text <> [] /\ not_in_future Date_parse text now = false.
Proof.
  destruct text as [|c text].
  - simpl. split; [discriminate | intros [H _]; contradiction].
  - unfold hookform.validateField, hookform.check_required,
      hookform.check_length, hookform.check_pattern, hookform.check_validate,
      hookform.exceeds_max, hookform.below_min, create_send_time_rules.
    cbn [hookform.required hookform.maxLength hookform.minLength
         hookform.pattern hookform.validate truthy negb hookform.or_else].
    destruct (not_in_future Date_parse (c :: text) now); split.
    + discriminate.
    + intros [_ H]. discriminate.
    + intros _. split; [discriminate | reflexivity].
    + reflexivity.
Qed.

(** X1.  The schedule form calls the API exactly when the phone matches
    its pattern, the body has 1 to 4096 characters, a date is typed that
    the runtime can parse, and the instant is after both clock readings;
    the payload is then the formatted phone, the trimmed body and the ISO
    text of the instant. *)
Theorem create_calls_api_iff
    (now_validate now_submit : Z) (data p : schedule_fields) :
  create_handleSubmit Date_parse toISOString now_validate now_submit data
  = Requested p
  <->
  PhonePattern.create (phone data) = true
  /\ 1 <= Z.of_nat (length (message data)) <= 4096
  /\ send_time data <> []
  /\ exists st,
      Date_parse (send_time data) = Some st
      /\ now_validate < st
      /\ now_submit < st
      /\ p = {| phone := formatters.formatPhone (Some (phone data));
                message := trim (message data);
                send_time := toISOString st |}.
Proof.
  unfold create_handleSubmit. split.
  - destruct (hookform.collect _) eqn:Hc; [|discriminate].
    apply collect_nil_three in Hc. destruct Hc as (Hphone & Hmsg & Htime).
    apply create_phone_field in Hphone. apply create_message_field in Hmsg.
    apply create_send_time_field_iff in Htime. destruct Htime as [Hne Hv].
    destruct (Date_parse (send_time data)) as [st|] eqn:Hp.
    + rewrite (create_onSubmit_dated _ _ _ _ _ Hp).
      rewrite (not_in_future_spec _ _ _ _ Hp) in Hv.
      destruct (Z.leb_spec st now_submit) as [Hle|Hgt]; [discriminate|].
      intros H. inversion H.
      split; [exact Hphone|]. split; [exact Hmsg|]. split; [exact Hne|].
      exists st. apply Z.leb_gt in Hv. repeat split; assumption.
    + unfold create_onSubmit. rewrite Hp. discriminate.
  - intros (Hphone & Hmsg & Hne & st & Hp & Hv & Hs & ->).
    assert (Hc : hookform.collect
                   [("phone"%string, create_phone_rules, phone data);
                    ("message"%string, create_message_rules, message data);
                    ("send_time"%string,
                     create_send_time_rules Date_parse now_validate,
                     send_time data)] = []).
    { apply collect_nil_three. split; [apply create_phone_field; exact Hphone|].
      split; [apply create_message_field; exact Hmsg|].
      apply create_send_time_field_iff. split; [exact Hne|].
      rewrite (not_in_future_spec _ _ _ _ Hp). apply Z.leb_gt. exact Hv. }
    rewrite Hc, (create_onSubmit_dated _ _ _ _ _ Hp).
    apply Z.leb_gt in Hs. rewrite Hs. reflexivity.
Qed.

(** X2.  The edit form calls the API exactly when the phone is an
    optional ['+'] and 10 to 15 digits, the body has 1 to 1000
    characters, a date is typed that the runtime can parse, and the
    instant is after the clock reading of the handler; the request
    carries the message id and the formatted payload. *)
Theorem edit_calls_api_iff
    (messageId : N) (now : Z) (data : schedule_fields)
    (p : N * schedule_fields) :
  edit_handleSubmit Date_parse toISOString messageId now data = Requested p
  <->
  PhonePattern.edit (phone data) = true
  /\ 1 <= Z.of_nat (length (message data)) <= 1000
  /\ send_time data <> []
  /\ exists st,
      Date_parse (send_time data) = Some st
      /\ now < st
      /\ p = (messageId,
              {| phone := formatters.formatPhone (Some (phone data));
                 message := trim (message data);
                 send_time := toISOString st |}).
Proof.
  unfold edit_handleSubmit. split.
  - destruct (hookform.collect _) eqn:Hc; [|discriminate].
    apply collect_nil_three in Hc. destruct Hc as (Hphone & Hmsg & Htime).
    apply edit_phone_field in Hphone. apply edit_message_field in Hmsg.
    apply required_only_field in Htime.
    destruct (Date_parse (send_time data)) as [st|] eqn:Hp.
    + rewrite (edit_onSubmit_dated _ _ _ _ _ _ Hp).
      destruct (Z.leb_spec st now) as [Hle|Hgt]; [discriminate|].
      intros H. inversion H.
      split; [exact Hphone|]. split; [exact Hmsg|]. split; [exact Htime|].
      exists st. repeat split; assumption.
    + unfold edit_onSubmit. rewrite Hp. discriminate.
  - intros (Hphone & Hmsg & Hne & st & Hp & Hs & ->).
    assert (Hc : hookform.collect
                   [("phone"%string, edit_phone_rules, phone data);
                    ("message"%string, edit_message_rules, message data);
                    ("send_time"%string, edit_send_time_rules,
                     send_time data)] = []).
    { apply collect_nil_three. split; [apply edit_phone_field; exact Hphone|].
      split; [apply edit_message_field; exact Hmsg|].
      apply required_only_field. exact Hne. }
    rewrite Hc, (edit_onSubmit_dated _ _ _ _ _ _ Hp).
    apply Z.leb_gt in Hs. rewrite Hs. reflexivity.
Qed.

(** X7.  In the schedule form a date text the runtime cannot parse gets
    past the send-time rule (the comparison with an Invalid Date is
    false) and the handler stops with the generic "Error creando el
    mensaje".  When the clock does not move between the rule and the
    handler, that is the only notification the handler can stop with:
    its own future-date check never fires. *)
Theorem create_invalid_date_generic_error (data : schedule_fields) :
  (create_fields_ok data ->
   Date_parse (send_time data) = None ->
   forall now_validate now_submit,
     create_handleSubmit Date_parse toISOString now_validate now_submit data
     = Stopped (toast_error (lit "Error creando el mensaje")))
  /\ (forall now t,
         create_handleSubmit Date_parse toISOString now now data = Stopped t ->
         Date_parse (send_time data) = None
         /\ t = toast_error (lit "Error creando el mensaje")).
Proof.
  split.
  - intros (Hphone & Hmsg & Hne) Hp now_validate now_submit.
    assert (Hc : hookform.collect
                   [("phone"%string, create_phone_rules, phone data);
                    ("message"%string, create_message_rules, message data);
                    ("send_time"%string,
                     create_send_time_rules Date_parse now_validate,
                     send_time data)] = []).
    { apply collect_nil_three. split; [exact Hphone|]. split; [exact Hmsg|].
      apply create_send_time_field_iff. split; [exact Hne|].
      unfold not_in_future. rewrite Hp. reflexivity. }
    unfold create_handleSubmit. rewrite Hc.
    unfold create_onSubmit. rewrite Hp. reflexivity.
  - intros now t. unfold create_handleSubmit.
    destruct (hookform.collect _) eqn:Hc; [|discriminate].
    apply collect_nil_three in Hc. destruct Hc as (_ & _ & Htime).
    apply create_send_time_field_iff in Htime. destruct Htime as [_ Hv].
    unfold create_onSubmit.
    destruct (Date_parse (send_time data)) as [st|] eqn:Hp.
    + rewrite Hv. discriminate.
    + intros H. inversion H. split; reflexivity.
Qed.

End SubmitConditions.

Lemma create_invalid_date_generic_error_witness :
  create_handleSubmit (fun _ => None) example_iso 10 12 example_data
  = Stopped (toast_error (lit "Error creando el mensaje")).
Proof.
  apply (proj1 (create_invalid_date_generic_error
                  (fun _ => None) example_iso example_data)).
  - repeat split. discriminate.
  - reflexivity.
Defined.

(** X3.  The direct-send form calls the API exactly when the phone is an
    optional ['+'], a digit 1-9 and 9 to 14 more digits and the body has
    1 to 4096 characters; it has no other check, so a submit that is not
    held back by a field error always reaches the API. *)
Theorem test_calls_api_iff (data p : direct_fields) :
  (test_handleSubmit data = Requested p
   <->
   PhonePattern.test (direct_phone data) = true
   /\ 1 <= Z.of_nat (length (direct_message data)) <= 4096
   /\ p = {| direct_phone :=
               formatters.formatPhone (Some (direct_phone data));
             direct_message := trim (direct_message data) |})
  /\ (forall t, test_handleSubmit data <> Stopped t).
Proof.
  unfold test_handleSubmit. split; [split|].
  - destruct (hookform.collect _) eqn:Hc; [|discriminate].
    apply collect_nil_two in Hc. destruct Hc as (Hphone & Hmsg).
    apply test_phone_field in Hphone. apply test_message_field in Hmsg.
    unfold test_onSubmit. intros H. inversion H.
    split; [exact Hphone|]. split; [exact Hmsg | reflexivity].
  - intros (Hphone & Hmsg & ->).
    assert (Hc : hookform.collect
                   [("phone"%string, test_phone_rules, direct_phone data);
                    ("message"%string, test_message_rules,
                     direct_message data)] = []).
    { apply collect_nil_two. split; [apply test_phone_field; exact Hphone|].
      apply test_message_field. exact Hmsg. }
    rewrite Hc. reflexivity.
  - intros t. destruct (hookform.collect _); discriminate.
Qed.

(** ** The phone number a form sends *)

Section PhoneShapes.

Import formatters.

Lemma digits_phone_chars (q : jsstring) :
  forallb is_digit q = true -> phone_chars_only q = true.
Proof.
  unfold phone_chars_only, is_phone_char. intros H.
  apply forallb_forall. intros c Hc.
  rewrite forallb_forall in H. rewrite (H c Hc). reflexivity.
Qed.

(** Formatting a dialable number gives ['+'] and its digits. *)
Lemma formatPhone_dialable (lo hi : nat) (p q : jsstring) :
  (0 < lo)%nat ->
  dialable lo hi p q ->
  formatPhone (Some p) = plus_sign :: q.
Proof.
  intros Hlo ([->| ->] & Hd & Hlen).
  - destruct q as [|c q]; [simpl in Hlen; lia|].
    rewrite formatPhone_nonempty.
    rewrite (strip_non_phone_fixed _ (digits_phone_chars _ Hd)).
    simpl in Hd. apply andb_prop in Hd. destruct Hd as [Hc _].
    simpl startsWith. rewrite (digit_not_plus _ Hc). reflexivity.
  - apply formatPhone_fixed; [reflexivity|].
    change (phone_chars_only (plus_sign :: q))
      with (is_phone_char plus_sign && phone_chars_only q).
    rewrite (digits_phone_chars _ Hd). reflexivity.
Qed.

Lemma canonical_dialable (q : jsstring) :
  forallb is_digit q = true -> canonical_phone (plus_sign :: q) = true.
Proof. intros Hd. unfold canonical_phone. rewrite N.eqb_refl. exact Hd. Qed.

Ltac split_pattern H :=
  repeat match type of H with
         | context [match ?x with _ => _ end] =>
             is_var x; destruct x; try discriminate H
         end.

Ltac digits_within H :=
  let Hl := fresh "Hlen" in
  let Hd := fresh "Hdigits" in
  let Hl1 := fresh "Hlow" in
  let Hl2 := fresh "Hhigh" in
  apply andb_prop in H; destruct H as [Hl Hd];
  apply andb_prop in Hl; destruct Hl as [Hl1 Hl2];
  apply Nat.leb_le in Hl1; apply Nat.leb_le in Hl2;
  repeat split; [first [right; reflexivity | left; reflexivity]
                | first [exact Hd | simpl; exact Hd]
                | simpl in *; lia | simpl in *; lia].

Lemma create_pattern_dialable (p : jsstring) :
  PhonePattern.create p = true -> exists q, dialable 10 12 p q.
Proof.
  unfold PhonePattern.create, PhonePattern.length_within, PhonePattern.digits.
  cbv zeta. intros H. apply orb_prop in H. destruct H as [H|H].
  - exists p. digits_within H.
  - split_pattern H.
    + eexists. digits_within H.
    + eexists. digits_within H.
Qed.

Lemma edit_pattern_dialable (p : jsstring) :
  PhonePattern.edit p = true <-> exists q, dialable 10 15 p q.
Proof.
  split.
  - unfold PhonePattern.edit, PhonePattern.length_within, PhonePattern.digits.
    cbv zeta. intros H.
    split_pattern H; eexists; digits_within H.
  - intros (q & [-> | ->] & Hd & Hlen).
    + assert (Hbody : PhonePattern.length_within 10 15 q
                      && PhonePattern.digits q = true).
      { unfold PhonePattern.length_within, PhonePattern.digits.
        rewrite Hd, andb_true_r. apply andb_true_intro.
        split; apply Nat.leb_le; lia. }
      destruct q as [|c q]; [simpl in Hlen; lia|].
      assert (Hc : (c =? plus_sign)%N = false).
      { simpl in Hd. apply andb_prop in Hd. apply digit_not_plus, Hd. }
      unfold PhonePattern.edit. cbv zeta. revert Hbody.
      generalize (PhonePattern.length_within 10 15 (c :: q)
                  && PhonePattern.digits (c :: q)).
      intros b ->. apply N.eqb_neq in Hc. unfold plus_sign in Hc.
      repeat match goal with
             | |- context [match ?x with _ => _ end] =>
                 is_var x; destruct x; try reflexivity
             end.
      exfalso. apply Hc. reflexivity.
    + unfold PhonePattern.edit, PhonePattern.length_within,
        PhonePattern.digits, plus_sign. cbv zeta.
      rewrite Hd, andb_true_r. apply andb_true_intro.
      split; apply Nat.leb_le; lia.
Qed.

Lemma test_pattern_dialable (p : jsstring) :
  PhonePattern.test p = true -> exists q, dialable 10 15 p q.
Proof.
  unfold PhonePattern.test, PhonePattern.length_within, PhonePattern.digits,
    PhonePattern.is_nonzero_digit.
  cbv zeta. intros H.
  assert (Hnz : forall c, ((49 <=? c) && (c <=? 57))%N = true ->
                          is_digit c = true).
  { intros c Hc. unfold is_digit. apply andb_prop in Hc.
    destruct Hc as [Hc1 Hc2]. apply N.leb_le in Hc1.
    rewrite Hc2, andb_true_r. apply N.leb_le. lia. }
  split_pattern H;
    (eexists; split; [first [right; reflexivity | left; reflexivity]|]);
    apply andb_prop in H; destruct H as [H Hd];
    apply andb_prop in H; destruct H as [Hc Hl];
    apply andb_prop in Hl; destruct Hl as [Hl1 Hl2];
    apply Nat.leb_le in Hl1; apply Nat.leb_le in Hl2;
    (split; [simpl; rewrite (Hnz _ Hc); exact Hd | simpl in *; lia]).
Qed.

End PhoneShapes.

Section SentPhone.

Import formatters.

Variable Date_parse : jsstring -> option Z.
Variable toISOString : Z -> jsstring.

Lemma create_requested_phone now_validate now_submit data p :
  create_handleSubmit Date_parse toISOString now_validate now_submit data
  = Requested p ->
  PhonePattern.create (phone data) = true
  /\ phone p = formatPhone (Some (phone data)).
Proof.
  unfold create_handleSubmit.
  destruct (hookform.collect _) eqn:Hc; [|discriminate].
  apply collect_nil_three in Hc. destruct Hc as (Hphone & _ & _).
  apply create_phone_field in Hphone.
  unfold create_onSubmit.
  destruct (Date_parse (send_time data)); [|discriminate].
  destruct (not_in_future _ _ _); [discriminate|].
  intros H. inversion H. split; [exact Hphone | reflexivity].
Qed.

Lemma edit_requested_phone messageId now data p :
  edit_handleSubmit Date_parse toISOString messageId now data = Requested p ->
  PhonePattern.edit (phone data) = true
  /\ phone p.2 = formatPhone (Some (phone data)).
Proof.
  unfold edit_handleSubmit.
  destruct (hookform.collect _) eqn:Hc; [|discriminate].
  apply collect_nil_three in Hc. destruct Hc as (Hphone & _ & _).
  apply edit_phone_field in Hphone.
  unfold edit_onSubmit.
  destruct (Date_parse (send_time data)); [|discriminate].
  destruct (not_in_future _ _ _); [discriminate|].
  intros H. inversion H. split; [exact Hphone | reflexivity].
Qed.

Lemma test_requested_phone data p :
  test_handleSubmit data = Requested p ->
  PhonePattern.test (direct_phone data) = true
  /\ direct_phone p = formatPhone (Some (direct_phone data)).
Proof.
  unfold test_handleSubmit.
  destruct (hookform.collect _) eqn:Hc; [|discriminate].
  apply collect_nil_two in Hc. destruct Hc as (Hphone & _).
  apply test_phone_field in Hphone.
  unfold test_onSubmit. intros H. inversion H.
  split; [exact Hphone | reflexivity].
Qed.

(** The phone sent for a dialable input. *)
Lemma sent_phone_shape (lo hi : nat) (typed sent : jsstring) :
  (0 < lo)%nat ->
  (exists q, dialable lo hi typed q) ->
  sent = formatPhone (Some typed) ->
  canonical_phone sent = true
  /\ (lo + 1 <= length sent <= hi + 1)%nat
  /\ (sent = typed \/ sent = plus_sign :: typed).
Proof.
  intros Hlo [q Hq] ->.
  rewrite (formatPhone_dialable lo hi typed q Hlo Hq).
  destruct Hq as (Hp & Hd & Hlen).
  split; [apply canonical_dialable; exact Hd|].
  split; [simpl; lia|].
  destruct Hp as [-> | ->]; [right | left]; reflexivity.
Qed.

(** X4.  Whatever the typed number, the phone a form sends to the API
    is in canonical form, a ['+'] followed by digits only: 10 to 12
    digits from the schedule form, 10 to 15 from the edit and the
    direct-send forms.  It is the typed number itself when that starts
    with ['+'], and the typed number with a ['+'] in front otherwise; no
    country code is added. *)
Theorem sent_phone_is_canonical
    (now_validate now_submit : Z) (messageId : N)
    (data : schedule_fields) (direct : direct_fields) :
  (forall p,
      create_handleSubmit Date_parse toISOString now_validate now_submit data
      = Requested p ->
      canonical_phone (phone p) = true
      /\ (11 <= length (phone p) <= 13)%nat
      /\ (phone p = phone data \/ phone p = plus_sign :: phone data))
  /\ (forall p,
         edit_handleSubmit Date_parse toISOString messageId now_submit data
         = Requested p ->
         canonical_phone (phone p.2) = true
         /\ (11 <= length (phone p.2) <= 16)%nat
         /\ (phone p.2 = phone data \/ phone p.2 = plus_sign :: phone data))
  /\ (forall p,
         test_handleSubmit direct = Requested p ->
         canonical_phone (direct_phone p) = true
         /\ (11 <= length (direct_phone p) <= 16)%nat
         /\ (direct_phone p = direct_phone direct
             \/ direct_phone p = plus_sign :: direct_phone direct)).
Proof.
  split; [|split].
  - intros p Hp. apply create_requested_phone in Hp. destruct Hp as [Hm Hs].
    apply (sent_phone_shape 10 12 (phone data)); [lia | | exact Hs].
    apply create_pattern_dialable. exact Hm.
  - intros p Hp. apply edit_requested_phone in Hp. destruct Hp as [Hm Hs].
    apply (sent_phone_shape 10 15 (phone data)); [lia | | exact Hs].
    apply edit_pattern_dialable. exact Hm.
  - intros p Hp. apply test_requested_phone in Hp. destruct Hp as [Hm Hs].
    apply (sent_phone_shape 10 15 (direct_phone direct)); [lia | | exact Hs].
    apply test_pattern_dialable. exact Hm.
Qed.

End SentPhone.

Lemma sent_phone_is_canonical_witness :
  canonical_phone (lit "+5512345678") = true
  /\ canonical_phone (lit "+525512345678") = true.
Proof.
  destruct (sent_phone_is_canonical example_parse example_iso
              10 12 7%N example_data example_direct) as (Hc & _ & Ht).
  split.
  - exact (proj1 (Hc {| phone := lit "+5512345678";
                        message := lit "hola";
                        send_time := example_iso 16 |} eq_refl)).
  - exact (proj1 (Ht {| direct_phone := lit "+525512345678";
                        direct_message := lit "prueba" |} eq_refl)).
Defined.

Section CrossForm.

Import formatters.

(** X6.  A number the schedule form accepts, in the form it is sent
    (and stored), passes the phone rule of the edit form, and the edit
    form sends it on unchanged. *)
Theorem scheduled_phone_is_editable (typed : jsstring) :
  PhonePattern.create typed = true ->
  hookform.validateField edit_phone_rules (formatPhone (Some typed)) = None
  /\ formatPhone (Some (formatPhone (Some typed))) = formatPhone (Some typed).
Proof.
  intros Hm. apply create_pattern_dialable in Hm. destruct Hm as [q Hq].
  rewrite (formatPhone_dialable 10 12 typed q ltac:(lia) Hq).
  destruct Hq as (_ & Hd & Hlen).
  assert (Hq' : dialable 10 15 (plus_sign :: q) q).
  { split; [right; reflexivity|]. split; [exact Hd | lia]. }
  split.
  - apply edit_phone_field, edit_pattern_dialable. exists q. exact Hq'.
  - apply (formatPhone_dialable 10 15 _ q ltac:(lia) Hq').
Qed.

Lemma scheduled_phone_is_editable_witness :
  hookform.validateField edit_phone_rules (lit "+5512345678") = None.
Proof.
  exact (proj1 (scheduled_phone_is_editable (lit "5512345678") eq_refl)).
Defined.

End CrossForm.

(** ** Blank bodies *)

Section BlankBody.

Lemma trimStart_blank (s : jsstring) :
  forallb is_white_space s = true -> trimStart s = [].
Proof.
  induction s as [|c s IH]; simpl; [reflexivity|].
  intros H. apply andb_prop in H. destruct H as [Hc Hs].
  rewrite Hc. apply IH. exact Hs.
Qed.

Lemma trim_blank_iff (s : jsstring) :
  trim s = [] <-> forallb is_white_space s = true.
Proof.
  split.
  - intros Ht. destruct (trim_trimmed_from s) as [(pre & post & Hs & Hpre & Hpost) _].
    rewrite Ht in Hs. simpl in Hs. rewrite Hs, forallb_app, Hpre, Hpost.
    reflexivity.
  - intros Hs. unfold trim. rewrite (trimStart_blank s Hs). reflexivity.
Qed.

(** X5.  The forms check the body as typed and send it trimmed: a body
    of white space only, not empty and within the form's length bound,
    passes the message rule of every form, and what is sent for it is
    the empty string. *)
Theorem blank_body_is_sent_empty (body : jsstring) :
  body <> [] ->
  forallb is_white_space body = true ->
  trim body = []
  /\ (Z.of_nat (length body) <= 4096 ->
      hookform.validateField create_message_rules body = None
      /\ hookform.validateField test_message_rules body = None)
  /\ (Z.of_nat (length body) <= 1000 ->
      hookform.validateField edit_message_rules body = None).
Proof.
  intros Hne Hblank.
  assert (Hlen : 1 <= Z.of_nat (length body)).
  { destruct body; [contradiction | simpl length; lia]. }
  split; [apply trim_blank_iff; exact Hblank|]. split.
  - intros Hmax. split.
    + apply create_message_field. lia.
    + apply test_message_field. lia.
  - intros Hmax. apply edit_message_field. lia.
Qed.

Lemma blank_body_is_sent_empty_witness :
  test_handleSubmit {| direct_phone := lit "+525512345678";
                       direct_message := lit "   " |}
  = Requested {| direct_phone := lit "+525512345678";
                 direct_message := [] |}
  /\ hookform.validateField edit_message_rules (lit "   ") = None.
Proof.
  destruct (blank_body_is_sent_empty (lit "   ")
              ltac:(discriminate) eq_refl) as (_ & _ & Hedit).
  split; [reflexivity|]. apply Hedit. vm_compute. discriminate.
Defined.

End BlankBody.

(** ** The text of the error notification *)

Section NotificationText.

Import api.

(** X8.  The interceptor's notification is never empty.  It is the
    message of the response body when that is present and not empty,
    else the message of the error when that is present and not empty,
    else "Error desconocido". *)
Theorem notification_text_priority (e : error) :
  notification_text e <> []
  /\ (forall r m,
         error_response e = Some r -> data_message r = Some m -> m <> [] ->
         notification_text e = m)
  /\ (truthy_opt (error_response e ≫= data_message) = false ->
      forall m, error_text e = Some m -> m <> [] -> notification_text e = m)
  /\ (truthy_opt (error_response e ≫= data_message) = false ->
      truthy_opt (error_text e) = false ->
      notification_text e = lit "Error desconocido").
Proof.
  unfold notification_text. split; [|split; [|split]].
  - destruct (error_response e ≫= data_message) as [[|c m]|];
      simpl; try discriminate;
      destruct (error_text e) as [[|d t]|]; simpl; discriminate.
  - intros r m Hr Hm Hne. rewrite Hr. simpl. rewrite Hm.
    destruct m; [contradiction | reflexivity].
  - intros Hserver m Hm Hne. rewrite Hserver, Hm.
    destruct m; [contradiction | reflexivity].
  - intros Hserver Htext. rewrite Hserver, Htext. reflexivity.
Qed.

Lemma notification_text_priority_witness :
  notification_text
    {| error_response :=
         Some {| status := 500; data_message := Some (lit "boom") |};
       error_text := Some (lit "Request failed with status code 500") |}
  = lit "boom"
  /\ notification_text {| error_response := None; error_text := None |}
     = lit "Error desconocido".
Proof.
  split.
  - eapply (proj1 (proj2 (notification_text_priority _))).
    + reflexivity.
    + reflexivity.
    + discriminate.
  - apply (proj2 (proj2 (proj2 (notification_text_priority _))));
      reflexivity.
Defined.

End NotificationText.

(** ** The length of a truncated text *)

Section TruncateBound.

Import formatters.

Lemma substring_from_start (t : jsstring) (n : Z) :
  substring t 0 n = take (Z.to_nat n) t.
Proof.
  unfold substring.
  replace (Z.min (Z.max 0 0) (Z.of_nat (length t))) with 0 by lia.
  set (stop := Z.min (Z.max n 0) (Z.of_nat (length t))).
  replace (Z.min 0 stop) with 0 by (unfold stop; lia).
  replace (Z.max 0 stop) with stop by (unfold stop; lia).
  rewrite Z.sub_0_r. change (drop (Z.to_nat 0) t) with t.
  destruct (Z.le_gt_cases n (Z.of_nat (length t))) as [Hle|Hgt].
  - f_equal. unfold stop. lia.
  - rewrite (take_ge t (Z.to_nat stop)) by (unfold stop; lia).
    rewrite (take_ge t (Z.to_nat n)) by lia. reflexivity.
Qed.

(** X9.  [truncateText] never returns more than [max(maxLength, 0) + 3]
    characters.  The dots are added to the cut text, so a text only one
    or two characters over the bound comes back longer than it was; with
    a bound of zero or less every non-empty text becomes the three dots
    alone. *)
Theorem truncateText_length_bound (text : option jsstring) (maxLength : Z) :
  Z.of_nat (length (truncateText text maxLength)) <= Z.max maxLength 0 + 3
  /\ (forall t,
         text = Some t ->
         0 <= maxLength < Z.of_nat (length t) ->
         Z.of_nat (length t) < maxLength + 3 ->
         (length t < length (truncateText text maxLength))%nat)
  /\ (forall t,
         text = Some t -> t <> [] -> maxLength <= 0 ->
         truncateText text maxLength = lit "...").
Proof.
  split; [|split].
  - unfold truncateText.
    destruct (truthy_opt text); simpl negb; cbv iota; [|simpl; lia].
    rewrite Z.gtb_ltb.
    destruct (Z.ltb_spec maxLength (Z.of_nat (length (default [] text)))).
    + rewrite substring_from_start, length_app, length_take.
      simpl length. lia.
    + lia.
  - intros t -> Hlt Hnear. rewrite truncateText_long by exact Hlt.
    rewrite length_app, length_take. simpl length. lia.
  - intros t -> Hne Hmax. unfold truncateText.
    destruct t as [|c t]; [contradiction|].
    simpl truthy_opt. simpl negb. cbv iota. simpl default.
    rewrite Z.gtb_ltb.
    destruct (Z.ltb_spec maxLength (Z.of_nat (length (c :: t))));
      [|simpl length in *; lia].
    rewrite substring_from_start.
    replace (Z.to_nat maxLength) with 0%nat by lia. reflexivity.
Qed.

Lemma truncateText_length_bound_witness :
  (length (lit "hola!") < length (truncateText (Some (lit "hola!")) 4))%nat
  /\ truncateText (Some (lit "hola")) 0 = lit "...".
Proof.
  destruct (truncateText_length_bound (Some (lit "hola!")) 4) as (_ & Hl & _).
  destruct (truncateText_length_bound (Some (lit "hola")) 0) as (_ & _ & Hz).
  split.
  - apply (Hl (lit "hola!")); [reflexivity | vm_compute; intuition discriminate
                              | vm_compute; reflexivity].
  - apply (Hz (lit "hola")); [reflexivity | discriminate | lia].
Defined.

End TruncateBound.

(** ** The phone preview *)

Section PreviewFacts.

Import formatters.

Lemma phone_char_not_noise (c : N) :
  is_phone_char c = true -> is_preview_noise c = false.
Proof.
  unfold is_phone_char, is_digit, plus_sign. intros H.
  assert (Hc : (48 <= c <= 57 \/ c = 43)%N).
  { apply orb_prop in H. destruct H as [H|H].
    - apply andb_prop in H. destruct H as [H1 H2].
      apply N.leb_le in H1, H2. left. lia.
    - apply N.eqb_eq in H. right. exact H. }
  unfold is_preview_noise, is_white_space.
  repeat match goal with
         | |- context [(c =? ?b)%N] =>
             destruct (N.eqb_spec c b); [lia|]
         end.
  destruct (N.leb_spec 8192 c); [lia|]. reflexivity.
Qed.

Lemma preview_keeps_phone_chars (p : jsstring) :
  phone_chars_only p = true ->
  List.filter (fun c => negb (is_preview_noise c)) p = p.
Proof.
  unfold phone_chars_only.
  induction p as [|c p IH]; simpl; [reflexivity|].
  intros H. apply andb_prop in H. destruct H as [Hc Hp].
  rewrite (phone_char_not_noise c Hc). simpl. f_equal. apply IH. exact Hp.
Qed.

Lemma strip_preview (p : jsstring) :
  strip_non_phone (List.filter (fun c => negb (is_preview_noise c)) p)
  = strip_non_phone p.
Proof.
  unfold strip_non_phone.
  induction p as [|c p IH]; simpl; [reflexivity|].
  change (is_digit c || (c =? plus_sign)%N) with (is_phone_char c).
  destruct (is_preview_noise c) eqn:Hn; simpl.
  - destruct (is_phone_char c) eqn:Hc; [|exact IH].
    rewrite (phone_char_not_noise c Hc) in Hn. discriminate.
  - change (is_digit c || (c =? plus_sign)%N) with (is_phone_char c).
    destruct (is_phone_char c); [f_equal|]; exact IH.
Qed.

Lemma formatPhone_by_strip (s : jsstring) :
  s <> [] ->
  formatPhone (Some s) =
    if startsWith plus_sign (strip_non_phone s)
    then strip_non_phone s
    else plus_sign :: strip_non_phone s.
Proof.
  intros Hne. destruct s as [|c s]; [contradiction|].
  apply formatPhone_nonempty.
Qed.

Lemma dialable_phone_chars (lo hi : nat) (p q : jsstring) :
  dialable lo hi p q -> phone_chars_only p = true.
Proof.
  intros ([-> | ->] & Hd & _).
  - apply digits_phone_chars. exact Hd.
  - change (phone_chars_only (plus_sign :: q))
      with (is_phone_char plus_sign && phone_chars_only q).
    rewrite (digits_phone_chars _ Hd). reflexivity.
Qed.

(** X10.  The preview of the direct-send form holds no white space,
    hyphen or parenthesis, and previewing a preview changes nothing.  A
    number the form accepts is previewed as typed.  For any typed text
    whose preview is not empty, formatting the preview gives the phone
    that would be sent for the typed text. *)
Theorem formatPhonePreview_spec (typed : jsstring) :
  (forall c, In c (formatPhonePreview (Some typed)) ->
             is_preview_noise c = false)
  /\ formatPhonePreview (Some (formatPhonePreview (Some typed)))
     = formatPhonePreview (Some typed)
  /\ (PhonePattern.test typed = true ->
      formatPhonePreview (Some typed) = typed)
  /\ (formatPhonePreview (Some typed) <> [] ->
      formatPhone (Some (formatPhonePreview (Some typed)))
      = formatPhone (Some typed)).
Proof.
  assert (Hshape : forall s,
             formatPhonePreview (Some s)
             = List.filter (fun c => negb (is_preview_noise c)) s).
  { intros [|c s]; reflexivity. }
  split; [|split; [|split]].
  - intros c Hc. rewrite Hshape in Hc. apply filter_In in Hc.
    destruct Hc as [_ Hc]. apply negb_true_iff. exact Hc.
  - rewrite !Hshape. induction typed as [|c t IH]; simpl; [reflexivity|].
    destruct (is_preview_noise c) eqn:Hn; simpl; [exact IH|].
    rewrite Hn. simpl. f_equal. exact IH.
  - intros Hm. apply test_pattern_dialable in Hm. destruct Hm as [q Hq].
    rewrite Hshape. apply preview_keeps_phone_chars.
    apply (dialable_phone_chars _ _ _ _ Hq).
  - intros Hne.
    assert (Htyped : typed <> []).
    { intros ->. apply Hne. reflexivity. }
    rewrite (formatPhone_by_strip _ Hne), (formatPhone_by_strip _ Htyped).
    rewrite Hshape, strip_preview. reflexivity.
Qed.

Lemma formatPhonePreview_spec_witness :
  formatPhonePreview (Some (lit "+525512345678")) = lit "+525512345678"
  /\ formatters.formatPhone (Some (lit "52 (55) 1234-5678"))
     = lit "+525512345678".
Proof.
  destruct (formatPhonePreview_spec (lit "+525512345678")) as (_ & _ & Hid & _).
  destruct (formatPhonePreview_spec (lit "52 (55) 1234-5678"))
    as (_ & _ & _ & Hfmt).
  split.
  - apply Hid. reflexivity.
  - rewrite <- Hfmt; [reflexivity | discriminate].
Defined.

End PreviewFacts.

(** ** getMessageStatus as the clock advances *)

Section StatusOverTime.

Import formatters.

(** X16.  As the clock advances a message can only go from pending to
    overdue: once overdue it stays overdue, and whether it shows as sent
    or failed does not depend on the clock.  A message whose send time
    is not a valid date is never shown as overdue. *)
Theorem status_over_time (now later : Z) (m : Msg.t) :
  now <= later ->
  (status (getMessageStatus now m) = overdue ->
   status (getMessageStatus later m) = overdue)
  /\ (status (getMessageStatus now m) = sent <->
      status (getMessageStatus later m) = sent)
  /\ (status (getMessageStatus now m) = failed <->
      status (getMessageStatus later m) = failed)
  /\ (status (getMessageStatus later m) = pending ->
      status (getMessageStatus now m) = pending)
  /\ (Msg.send_time m = None ->
      status (getMessageStatus now m) <> overdue).
Proof.
  intros Hle. unfold getMessageStatus, date_leb.
  destruct (Msg.is_sent m); simpl.
  { repeat split; try discriminate; try tauto. }
  destruct (truthy_opt (Msg.error_message m)); simpl.
  { repeat split; try discriminate; try tauto. }
  destruct (Msg.send_time m) as [t|]; simpl.
  - destruct (Z.leb_spec t now), (Z.leb_spec t later); simpl;
      try lia; repeat split; try discriminate; try tauto.
  - repeat split; try discriminate; try tauto.
Qed.

Lemma status_over_time_witness :
  status (getMessageStatus 2000
            {| Msg.id := 1%N; Msg.phone := lit "+15551230000";
               Msg.message := lit "hi"; Msg.send_time := Some 1000;
               Msg.is_sent := false; Msg.sent_at := None;
               Msg.error_message := None |}) = overdue.
Proof.
  apply (proj1 (status_over_time 1000 2000 _ ltac:(lia))). reflexivity.
Defined.

End StatusOverTime.

(** ** The query of the list request *)

Section ListQuery.

Import apiService.

Lemma query_page (params : list_params) (v : param_value) :
  In ("page"%string, v) (getScheduledMessages params) <->
  v = number_text (default 1 (page params)).
Proof.
  unfold getScheduledMessages.
  destruct (truthy_opt (status params)), (truthy_opt (phone params));
    simpl; split;
    try (intros ->; left; reflexivity);
    intros H;
    repeat match goal with
           | H : _ \/ _ |- _ => destruct H as [H|H]
           | H : False |- _ => contradiction
           end;
    try discriminate; inversion H; reflexivity.
Qed.

Lemma query_per_page (params : list_params) (v : param_value) :
  In ("per_page"%string, v) (getScheduledMessages params) <->
  v = number_text (default 50 (per_page params)).
Proof.
  unfold getScheduledMessages.
  destruct (truthy_opt (status params)), (truthy_opt (phone params));
    simpl; split;
    try (intros ->; right; left; reflexivity);
    intros H;
    repeat match goal with
           | H : _ \/ _ |- _ => destruct H as [H|H]
           | H : False |- _ => contradiction
           end;
    try discriminate; inversion H; reflexivity.
Qed.

Lemma truthy_opt_some (v : option jsstring) :
  truthy_opt v = true <-> exists s, v = Some s /\ s <> [].
Proof.
  destruct v as [[|c s]|]; simpl; split; try discriminate.
  - intros (s & Hs & Hne). inversion Hs. subst s. contradiction.
  - intros _. eexists. split; [reflexivity | discriminate].
  - reflexivity.
  - intros (s & Hs & _). discriminate.
Qed.

Lemma query_status (params : list_params) (v : param_value) :
  In ("status"%string, v) (getScheduledMessages params) <->
  exists s, status params = Some s /\ s <> [] /\ v = text s.
Proof.
  unfold getScheduledMessages.
  destruct (truthy_opt (status params)) eqn:Hs.
  - apply truthy_opt_some in Hs. destruct Hs as (s & Hs & Hne).
    rewrite Hs. simpl default.
    destruct (truthy_opt (phone params)); simpl; split.
    + intros H.
      repeat match goal with
             | H : _ \/ _ |- _ => destruct H as [H|H]
             | H : False |- _ => contradiction
             end; try discriminate.
      inversion H. exists s. repeat split; assumption.
    + intros (s' & Hs' & _ & ->). inversion Hs'. right. right. left.
      reflexivity.
    + intros H.
      repeat match goal with
             | H : _ \/ _ |- _ => destruct H as [H|H]
             | H : False |- _ => contradiction
             end; try discriminate.
      inversion H. exists s. repeat split; assumption.
    + intros (s' & Hs' & _ & ->). inversion Hs'. right. right. left.
      reflexivity.
  - assert (Hno : ~ exists s, status params = Some s /\ s <> []).
    { intros H. apply truthy_opt_some in H. rewrite Hs in H. discriminate. }
    destruct (truthy_opt (phone params)); simpl; split;
      try (intros (s & Hs' & Hne & _); exfalso; apply Hno; exists s;
           split; assumption);
      intros H;
      repeat match goal with
             | H : _ \/ _ |- _ => destruct H as [H|H]
             | H : False |- _ => contradiction
             end; discriminate.
Qed.

Lemma query_phone (params : list_params) (v : param_value) :
  In ("phone"%string, v) (getScheduledMessages params) <->
  exists s, phone params = Some s /\ s <> [] /\ v = text s.
Proof.
  unfold getScheduledMessages.
  destruct (truthy_opt (phone params)) eqn:Hs.
  - apply truthy_opt_some in Hs. destruct Hs as (s & Hs & Hne).
    rewrite Hs. simpl default.
    destruct (truthy_opt (status params)); simpl; split.
    + intros H.
      repeat match goal with
             | H : _ \/ _ |- _ => destruct H as [H|H]
             | H : False |- _ => contradiction
             end; try discriminate.
      inversion H. exists s. repeat split; assumption.
    + intros (s' & Hs' & _ & ->). inversion Hs'. right. right. right. left.
      reflexivity.
    + intros H.
      repeat match goal with
             | H : _ \/ _ |- _ => destruct H as [H|H]
             | H : False |- _ => contradiction
             end; try discriminate.
      inversion H. exists s. repeat split; assumption.
    + intros (s' & Hs' & _ & ->). inversion Hs'. right. right. left.
      reflexivity.
  - assert (Hno : ~ exists s, phone params = Some s /\ s <> []).
    { intros H. apply truthy_opt_some in H. rewrite Hs in H. discriminate. }
    destruct (truthy_opt (status params)); simpl; split;
      try (intros (s & Hs' & Hne & _); exfalso; apply Hno; exists s;
           split; assumption);
      intros H;
      repeat match goal with
             | H : _ \/ _ |- _ => destruct H as [H|H]
             | H : False |- _ => contradiction
             end; discriminate.
Qed.

Lemma query_keys (params : list_params) :
  NoDup (List.map fst (getScheduledMessages params))
  /\ (2 <= length (getScheduledMessages params) <= 4)%nat
  /\ (forall k v, In (k, v) (getScheduledMessages params) ->
                  In k ["page"; "per_page"; "status"; "phone"]%string).
Proof.
  unfold getScheduledMessages.
  destruct (truthy_opt (status params)), (truthy_opt (phone params)); simpl.
  all: split; [|split; [lia|]].
  all: try (repeat (apply NoDup_cons_2;
                    [rewrite list_elem_of_In; simpl; intuition discriminate|]);
            apply NoDup_nil_2).
  all: intros k v H;
    repeat match goal with
           | H : _ \/ _ |- _ => destruct H as [H|H]
           | H : False |- _ => contradiction
           end; inversion H; tauto.
Qed.

(** X11.  The list request always carries [page] and [per_page], with
    the defaults 1 and 50 when the caller gives none.  It carries a
    [status] (a [phone]) entry exactly when the caller gives a non-empty
    one, with that value.  No key occurs twice and there is no other
    key. *)
Theorem getScheduledMessages_query (params : list_params) :
  (forall v, In ("page"%string, v) (getScheduledMessages params) <->
             v = number_text (default 1 (page params)))
  /\ (forall v, In ("per_page"%string, v) (getScheduledMessages params) <->
                v = number_text (default 50 (per_page params)))
  /\ (forall v, In ("status"%string, v) (getScheduledMessages params) <->
                exists s, status params = Some s /\ s <> [] /\ v = text s)
  /\ (forall v, In ("phone"%string, v) (getScheduledMessages params) <->
                exists s, phone params = Some s /\ s <> [] /\ v = text s)
  /\ NoDup (List.map fst (getScheduledMessages params))
  /\ (forall k v, In (k, v) (getScheduledMessages params) ->
                  In k ["page"; "per_page"; "status"; "phone"]%string).
Proof.
  split; [apply query_page|]. split; [apply query_per_page|].
  split; [apply query_status|]. split; [apply query_phone|].
  destruct (query_keys params) as (Hnd & _ & Hkeys).
  split; assumption.
Qed.

Import MessageListState.

(** X12.  A call of [loadMessages] asks for the page of the render
    state its closure captured, with ten messages per page.  With
    respect to that state (which, for the debounce timer, can be older
    than the one on screen) the request has a [status] entry exactly
    when the filter is not "all" (and not empty), and a [phone] entry
    exactly when the search text holds something other than white space;
    the value sent is the search text trimmed. *)
Theorem loadMessages_query (s : MessageListState.t) :
  (forall v, In ("page"%string, v) (loadMessages s) <->
             v = number_text (currentPage s))
  /\ (forall v, In ("per_page"%string, v) (loadMessages s) <->
                v = number_text 10)
  /\ (forall v, In ("status"%string, v) (loadMessages s) <->
                statusFilter s <> lit "all"
                /\ statusFilter s <> []
                /\ v = text (statusFilter s))
  /\ (forall v, In ("phone"%string, v) (loadMessages s) <->
                forallb is_white_space (searchTerm s) = false
                /\ v = text (trim (searchTerm s))).
Proof.
  unfold loadMessages. split; [|split; [|split]].
  - intros v. rewrite query_page. reflexivity.
  - intros v. rewrite query_per_page. reflexivity.
  - intros v. rewrite query_status. unfold load_params. simpl.
    destruct (bool_decide_reflect (statusFilter s = lit "all")) as [Hall|Hall].
    + split; [intros (x & Hx & _); discriminate | intros [H _]; contradiction].
    + split.
      * intros (x & Hx & Hne & ->). inversion Hx. subst x.
        repeat split; assumption.
      * intros (_ & Hne & ->). exists (statusFilter s).
        repeat split; assumption.
  - intros v. rewrite query_phone. unfold load_params. simpl.
    destruct (trim (searchTerm s)) as [|c t] eqn:Ht; simpl.
    + apply trim_blank_iff in Ht. rewrite Ht.
      split; [intros (x & Hx & _); discriminate | intros [H _]; discriminate].
    + assert (Hb : forallb is_white_space (searchTerm s) = false).
      { destruct (forallb is_white_space (searchTerm s)) eqn:Hb;
          [|reflexivity].
        apply trim_blank_iff in Hb. rewrite Hb in Ht. discriminate. }
      rewrite Hb. split.
      * intros (x & Hx & _ & ->). inversion Hx. split; reflexivity.
      * intros (_ & ->). eexists. split; [reflexivity|].
        split; [discriminate | reflexivity].
Qed.

End ListQuery.

(** ** Paging of the message list *)

Section Paging.

Import MessageListState.

Lemma pages_for_bounds (total : Z) :
  10 * (pages_for total - 1) < total <= 10 * pages_for total.
Proof. unfold pages_for. Z.div_mod_to_equations. lia. Qed.

(** A load leaves the totals in step: [totalPages] is the page count of
    [totalMessages]. *)
Lemma loaded_totals (total : Z) (s : MessageListState.t) :
  totalPages (loaded total s) = pages_for (totalMessages (loaded total s))
  /\ currentPage (loaded total s) = currentPage s.
Proof. split; reflexivity. Qed.



Lemma In_page_numbers (n : nat) (page : Z) :
  In page (List.map (fun i => Z.of_nat i + 1) (seq 0 n)) <->
  1 <= page <= Z.of_nat n.
Proof.
  rewrite in_map_iff. split.
  - intros (i & <- & Hi). apply in_seq in Hi. lia.
  - intros Hp. exists (Z.to_nat (page - 1)). split; [lia|].
    apply in_seq. lia.
Qed.

Lemma near_current (page current : Z) :
  (page =? current) || (Z.abs (page - current) <=? 2) = true <->
  current - 2 <= page <= current + 2.
Proof.
  rewrite orb_true_iff, Z.eqb_eq, Z.leb_le. lia.
Qed.

Lemma In_page_buttons (s : MessageListState.t) (page : Z) :
  In page (page_buttons s) <->
  1 < totalPages s
  /\ 1 <= page <= totalPages s
  /\ currentPage s - 2 <= page <= currentPage s + 2.
Proof.
  unfold page_buttons, shows_pagination. rewrite Z.gtb_ltb.
  destruct (Z.ltb_spec 1 (totalPages s)) as [Hshown|Hhidden].
  - rewrite filter_In, In_page_numbers, near_current. lia.
  - simpl. lia.
Qed.

Lemma page_numbers_NoDup (n : nat) :
  List.NoDup (List.map (fun i => Z.of_nat i + 1) (seq 0 n)).
Proof.
  apply Finite.Injective_map_NoDup.
  - intros i j H. lia.
  - apply List.seq_NoDup.
Qed.



(** X15.  Clicking "Anterior", "Siguiente" or a numbered button keeps
    the current page between 1 and [totalPages] and moves it by at most
    two pages; "Anterior" and "Siguiente", when enabled, move it by
    exactly one.  The search text, the filter and the totals are left
    as they are. *)
Theorem click_keeps_page_in_range (s s' : MessageListState.t) :
  1 <= currentPage s <= totalPages s ->
  click s s' ->
  1 <= currentPage s' <= totalPages s'
  /\ currentPage s - 2 <= currentPage s' <= currentPage s + 2
  /\ totalPages s' = totalPages s
  /\ totalMessages s' = totalMessages s
  /\ searchTerm s' = searchTerm s
  /\ statusFilter s' = statusFilter s
  /\ (currentPage s <> 1 -> previous_page s = currentPage s - 1)
  /\ (currentPage s <> totalPages s -> next_page s = currentPage s + 1).
Proof.
  intros Hrange Hclick.
  assert (Hmoves : (currentPage s <> 1 -> previous_page s = currentPage s - 1)
                   /\ (currentPage s <> totalPages s ->
                       next_page s = currentPage s + 1)).
  { unfold previous_page, next_page. lia. }
  destruct Hmoves as [Hprev Hnext].
  destruct Hclick as [s _ Hne | s _ Hne | s page _ Hin];
    unfold setCurrentPage; cbn [currentPage totalPages totalMessages
                                 searchTerm statusFilter].
  - rewrite (Hprev Hne). repeat split; try reflexivity; try assumption; lia.
  - rewrite (Hnext Hne). repeat split; try reflexivity; try assumption; lia.
  - apply In_page_buttons in Hin.
    repeat split; try reflexivity; try assumption; lia.
Qed.

Lemma click_keeps_page_in_range_witness :
  1 <= currentPage
         (setCurrentPage 2 {| searchTerm := []; statusFilter := lit "all";
                              currentPage := 3; totalPages := 3;
                              totalMessages := 25 |}) <= 3.
Proof.
  pose (s := {| searchTerm := []; statusFilter := lit "all";
                currentPage := 3; totalPages := 3; totalMessages := 25 |}).
  assert (Hclick : click s (setCurrentPage (previous_page s) s)).
  { apply click_previous; [reflexivity | discriminate]. }
  exact (proj1 (click_keeps_page_in_range s _ ltac:(simpl; lia) Hclick)).
Defined.

End Paging.

(** ** The tabs of the App *)

Section AppFacts.

Import App.

Local Open Scope string_scope.

Lemma tab_invariant_step (s s' : App.t) :
  tab_invariant s -> step s s' -> tab_invariant s'.
Proof.
  intros [Htab Hedit] Hstep.
  destruct Hstep as [s tabId Hnav | s | s messageId _ | s];
    unfold tab_invariant; simpl.
  - split; [|intros ->; simpl in Hnav; intuition discriminate].
    simpl in Hnav. intuition.
  - split; assumption.
  - split; [tauto | discriminate].
  - split; [tauto | discriminate].
Qed.

Lemma reachable_tab_invariant (s : App.t) : reachable s -> tab_invariant s.
Proof.
  induction 1 as [|s s' _ IH Hstep].
  - split; [left; reflexivity | discriminate].
  - exact (tab_invariant_step s s' IH Hstep).
Qed.

(** X17.  In every state the App can reach, the active tab is one of
    the five the switch handles, so the default branch is never taken:
    the dashboard is shown only on the dashboard tab.  The edit tab is
    entered only with a selected message: the details view is shown
    exactly on the edit tab with a non-zero id selected, and the
    "select a message" placeholder can appear only for the id 0. *)
Theorem reachable_views (s : App.t) :
  reachable s ->
  In (activeTab s) ["dashboard"; "create"; "list"; "edit"; "test"]
  /\ (renderContent s = DashboardView <-> activeTab s = "dashboard")
  /\ (forall messageId,
         renderContent s = MessageDetailsView messageId <->
         activeTab s = "edit"
         /\ selectedMessageId s = Some messageId
         /\ messageId <> 0%N)
  /\ (renderContent s = SelectAMessage ->
      activeTab s = "edit" /\ selectedMessageId s = Some 0%N).
Proof.
  intros Hr. destruct (reachable_tab_invariant s Hr) as [Htab Hedit].
  split; [exact Htab|].
  unfold renderContent, selected.
  simpl in Htab.
  destruct Htab as [H|[H|[H|[H|[H|[]]]]]]; rewrite <- H in *; simpl.
  - repeat split; try discriminate; try reflexivity;
      intros; try discriminate; intuition discriminate.
  - repeat split; try discriminate; try reflexivity;
      intros; try discriminate; intuition discriminate.
  - repeat split; try discriminate; try reflexivity;
      intros; try discriminate; intuition discriminate.
  - specialize (Hedit eq_refl).
    destruct (selectedMessageId s) as [messageId|]; [|contradiction].
    destruct (N.eqb_spec messageId 0) as [->|Hne].
    + split; [split; discriminate|]. split.
      * intros m. split; [discriminate|].
        intros (_ & Hm & Hz). inversion Hm. subst m. contradiction.
      * intros _. split; reflexivity.
    + split; [split; discriminate|]. split.
      * intros m. split.
        -- intros Hm. inversion Hm. subst m. repeat split. exact Hne.
        -- intros (_ & Hm & _). inversion Hm. reflexivity.
      * discriminate.
  - repeat split; try discriminate; try reflexivity;
      intros; try discriminate; intuition discriminate.
Qed.

Lemma reachable_views_witness :
  renderContent (handleEditMessage 7 (handleTabChange "list" initial))
  = MessageDetailsView 7.
Proof.
  assert (Hr : reachable
                 (handleEditMessage 7 (handleTabChange "list" initial))).
  { eapply reachable_step.
    - eapply reachable_step; [apply reachable_initial|].
      apply (step_tab initial "list"). simpl. tauto.
    - apply step_edit. reflexivity. }
  destruct (reachable_views _ Hr) as (_ & _ & Hdetails & _).
  apply Hdetails. repeat split. discriminate.
Defined.

End AppFacts.
